(** * Human Execution Protocol reference server: lifecycle engine

    A shallow embedding of [server/server.js] (the in-memory reference
    server of the Human Execution Protocol) and the properties of its
    request lifecycle: creation, resolution, cancellation, the timeout
    callback, the human inbox and the evidence hash of receipts.

    Conventions of the embedding.
    - JSON values that travel through request bodies are the inductive
      [value]; numbers are restricted to integers.
    - A JS string is a Rocq [string] holding its UTF-8 bytes, which is also
      what [crypto]'s [update] hashes.
    - An instant of time (what a JS [Date] holds) is a [Z] number of
      milliseconds since the epoch; [toISOString] renders it.  The server
      stores instants only through [toISOString] and reads them back only
      through [new Date(...)], so the model keeps the instant and renders
      it where the text is needed.
    - The [requests] Map is an association list in insertion order, which
      is the order [requests.values()] enumerates.
    - Node runs every handler and every timer callback to completion, so
      each of them is one function from state to state.
    - The authentication middleware answers 401 without calling the
      handler; a handler is modelled from the point where its token has
      been accepted, [req.humanId] being an argument.
    - The routes that only read the [requests] Map and are no subject of a
      statement here (the agent's listing, the statistics, the protocol
      description) and the delegation rules, which live in an array of
      their own, are left out. *)

From Stdlib Require Import ZArith String Ascii List Bool Lia Permutation Sorted.
Import ListNotations.
Local Open Scope list_scope.
Local Open Scope string_scope.
Local Open Scope Z_scope.

(* ------------------------------------------------------------------------- *)
(** ** SHA-256 ([crypto.createHash('sha256')]), after FIPS 180-4 *)
(* ------------------------------------------------------------------------- *)
Module Sha256.

Definition w32 (x : Z) : Z := Z.land x 4294967295.
Definition add32 (x y : Z) : Z := w32 (x + y).
Definition rotr (n x : Z) : Z :=
  Z.lor (Z.shiftr x n) (w32 (Z.shiftl x (32 - n))).
Definition not32 (x : Z) : Z := Z.lxor x 4294967295.

Definition Ch (x y z : Z) : Z := Z.lxor (Z.land x y) (Z.land (not32 x) z).
Definition Maj (x y z : Z) : Z :=
  Z.lxor (Z.lxor (Z.land x y) (Z.land x z)) (Z.land y z).
Definition Sigma0 (x : Z) : Z := Z.lxor (Z.lxor (rotr 2 x) (rotr 13 x)) (rotr 22 x).
Definition Sigma1 (x : Z) : Z := Z.lxor (Z.lxor (rotr 6 x) (rotr 11 x)) (rotr 25 x).
Definition sigma0 (x : Z) : Z := Z.lxor (Z.lxor (rotr 7 x) (rotr 18 x)) (Z.shiftr x 3).
Definition sigma1 (x : Z) : Z := Z.lxor (Z.lxor (rotr 17 x) (rotr 19 x)) (Z.shiftr x 10).

(** The round constants are the first 32 bits of the fractional parts of
    the cube roots of the first 64 primes, the initial hash value those of
    the square roots of the first 8. *)
Definition primes : list Z :=
  [ 2; 3; 5; 7; 11; 13; 17; 19; 23; 29; 31; 37; 41; 43; 47; 53; 59; 61; 67;
    71; 73; 79; 83; 89; 97; 101; 103; 107; 109; 113; 127; 131; 137; 139; 149;
    151; 157; 163; 167; 173; 179; 181; 191; 193; 197; 199; 211; 223; 227;
    229; 233; 239; 241; 251; 257; 263; 269; 271; 277; 281; 283; 293; 307;
    311 ].

Fixpoint cube_root_bits (k : nat) (r n : Z) : Z :=
  let try_bit (b : Z) := if (r + b) ^ 3 <=? n then r + b else r in
  match k with
  | O => try_bit 1
  | S k' => cube_root_bits k' (try_bit (2 ^ Z.of_nat k)) n
  end.

Definition cube_root (n : Z) : Z := cube_root_bits 40 0 n.

Definition K : list Z :=
  Eval vm_compute in map (fun p => w32 (cube_root (p * 2 ^ 96))) primes.

Definition H0 : list Z :=
  Eval vm_compute in map (fun p => w32 (Z.sqrt (p * 2 ^ 64))) (firstn 8 primes).

(** Padding: a 1 bit, zeros up to 56 mod 64 bytes, the bit length on 64 bits. *)
Definition be_bytes (n : nat) (x : Z) : list Z :=
  map (fun i => Z.land (Z.shiftr x (8 * Z.of_nat i)) 255) (rev (seq 0 n)).

Definition pad (msg : list Z) : list Z :=
  let len := Z.of_nat (length msg) in
  let zeros := Z.to_nat ((55 - len) mod 64) in
  (msg ++ [128] ++ repeat 0 zeros ++ be_bytes 8 (8 * len))%list.

Fixpoint words (fuel : nat) (bs : list Z) : list Z :=
  match fuel, bs with
  | S f, a :: b :: c :: d :: rest =>
      (Z.shiftl a 24 + Z.shiftl b 16 + Z.shiftl c 8 + d) :: words f rest
  | _, _ => []
  end.

(** Message schedule: the list holds W_{t-1}, W_{t-2}, ... (newest first). *)
Definition next_w (ws : list Z) : Z :=
  add32 (add32 (sigma1 (nth 1 ws 0)) (nth 6 ws 0))
        (add32 (sigma0 (nth 14 ws 0)) (nth 15 ws 0)).

Fixpoint extend (n : nat) (ws : list Z) : list Z :=
  match n with
  | O => ws
  | S n' => extend n' (next_w ws :: ws)
  end.

Definition schedule (block : list Z) : list Z := rev (extend 48 (rev block)).

Definition round (st : list Z) (kw : Z * Z) : list Z :=
  match st with
  | [a; b; c; d; e; f; g; h] =>
      let t1 := add32 (add32 (add32 (add32 h (Sigma1 e)) (Ch e f g)) (fst kw)) (snd kw) in
      let t2 := add32 (Sigma0 a) (Maj a b c) in
      [add32 t1 t2; a; b; c; add32 d t1; e; f; g]
  | _ => st
  end.

Definition compress (h : list Z) (block : list Z) : list Z :=
  let st := fold_left round (combine K (schedule block)) h in
  map (fun p => add32 (fst p) (snd p)) (combine h st).

Fixpoint blocks (fuel : nat) (ws : list Z) : list (list Z) :=
  match fuel with
  | O => []
  | S f =>
      match ws with
      | [] => []
      | _ => firstn 16 ws :: blocks f (skipn 16 ws)
      end
  end.

Definition digest_words (msg : list Z) : list Z :=
  let bs := pad msg in
  let ws := words (length bs) bs in
  fold_left compress (blocks (length ws) ws) H0.

Definition hex_digit (d : Z) : ascii :=
  if d <? 10 then ascii_of_nat (Z.to_nat (48 + d))
  else ascii_of_nat (Z.to_nat (87 + d)).

Definition hex_byte (b : Z) : string :=
  String (hex_digit (Z.shiftr b 4)) (String (hex_digit (Z.land b 15)) EmptyString).

Definition hex (bs : list Z) : string :=
  fold_right (fun b acc => hex_byte b ++ acc) EmptyString bs.

Definition bytes_of_string (s : string) : list Z :=
  map (fun c => Z.of_nat (nat_of_ascii c)) (list_ascii_of_string s).

(** [createHash('sha256').update(data).digest('hex')] *)
Definition sha256_hex (data : string) : string :=
  hex (flat_map (be_bytes 4) (digest_words (bytes_of_string data))).

End Sha256.

(* ------------------------------------------------------------------------- *)
(** ** JavaScript values *)
(* ------------------------------------------------------------------------- *)

#[local] Set Warnings "-register-all".

(** What [express.json()] and the query parser hand to the handlers.
    [VUndefined] is an absent property.  Numbers are integers.  The fields
    of an object come in the order its properties are enumerated. *)
Inductive value : Type :=
| VUndefined
| VNull
| VBool (b : bool)
| VNum (n : Z)
| VStr (s : string)
| VArr (elems : list value)
| VObj (fields : list (string * value)).

(** [!!v] *)
Definition truthy (v : value) : bool :=
  match v with
  | VUndefined | VNull => false
  | VBool b => b
  | VNum n => negb (n =? 0)
  | VStr s => negb (s =? "")%string
  | VArr _ | VObj _ => true
  end.

(** [a === b], which on these values is also the SameValueZero of
    [Array.prototype.includes].  Arrays and objects are compared by
    reference: a value parsed from one HTTP request is never the same object
    as one stored from another, so they compare unequal. *)
Definition strict_eq (a b : value) : bool :=
  match a, b with
  | VUndefined, VUndefined => true
  | VNull, VNull => true
  | VBool x, VBool y => Bool.eqb x y
  | VNum x, VNum y => x =? y
  | VStr x, VStr y => (x =? y)%string
  | _, _ => false
  end.

(** [arr.includes(x)] *)
Definition includes (arr : list value) (x : value) : bool :=
  existsb (fun e => strict_eq e x) arr.

(** [typeof v !== 'string'] negated *)
Definition is_string (v : value) : bool :=
  match v with VStr _ => true | _ => false end.

(** [o[k]] for an own property of a parsed object; a property read on a
    number, string, boolean or array gives [undefined] for every key the
    server uses.  Reading a property of [null] or [undefined] throws, which
    the callers below test for with [nullish] first. *)
Fixpoint assoc {A : Type} (k : string) (l : list (string * A)) : option A :=
  match l with
  | [] => None
  | (k', a) :: rest => if (k' =? k)%string then Some a else assoc k rest
  end.

Definition prop (o : value) (k : string) : value :=
  match o with
  | VObj fs => match assoc k fs with Some v => v | None => VUndefined end
  | _ => VUndefined
  end.

Definition nullish (v : value) : bool :=
  match v with VUndefined | VNull => true | _ => false end.

(** Decimal rendering of an integer (JS prints integers of magnitude below
    1e21 this way). *)
Fixpoint digits (fuel : nat) (n : Z) (acc : string) : string :=
  match fuel with
  | O => acc
  | S f =>
      let acc' := String (ascii_of_nat (Z.to_nat (48 + n mod 10))) acc in
      if n <? 10 then acc' else digits f (n / 10) acc'
  end.

Definition nat_digits (n : Z) : string := digits (S (Z.to_nat (Z.log2 n))) n "".

Definition Z_to_string (n : Z) : string :=
  if n <? 0 then "-" ++ nat_digits (- n) else nat_digits n.

(** [xs.join(sep)] with the rendering of an element left to the caller. *)
Definition join_with (sep : string) : list string -> string :=
  fix go (l : list string) : string :=
    match l with
    | [] => ""
    | [x] => x
    | x :: rest => x ++ sep ++ go rest
    end.

(** [String(v)], as used by [join] and by property keys. *)
Fixpoint to_string (v : value) : string :=
  match v with
  | VUndefined => "undefined"
  | VNull => "null"
  | VBool true => "true"
  | VBool false => "false"
  | VNum n => Z_to_string n
  | VStr s => s
  | VArr l =>
      join_with ","
        (map (fun e => match e with
                       | VUndefined | VNull => ""
                       | _ => to_string e
                       end) l)
  | VObj _ => "[object Object]"
  end.

(** [arr.join(sep)] *)
Definition join (sep : string) (arr : list value) : string :=
  join_with sep
    (map (fun e => match e with
                   | VUndefined | VNull => ""
                   | _ => to_string e
                   end) arr).

(** *** [JSON.stringify] *)

Definition hex4 (n : Z) : string :=
  "00" ++ Sha256.hex_byte n.

Definition quote_char (c : ascii) : string :=
  let n := Z.of_nat (nat_of_ascii c) in
  if n =? 8 then "\b"
  else if n =? 9 then "\t"
  else if n =? 10 then "\n"
  else if n =? 12 then "\f"
  else if n =? 13 then "\r"
  else if n =? 34 then String "\" (String c "")
  else if n =? 92 then "\\"
  else if n <? 32 then "\u" ++ hex4 n
  else String c "".

Fixpoint quote_body (s : string) : string :=
  match s with
  | EmptyString => ""
  | String c rest => quote_char c ++ quote_body rest
  end.

Definition dquote : string := String (ascii_of_nat 34) "".

Definition quote (s : string) : string := dquote ++ quote_body s ++ dquote.

(** A word between double quotes, for the messages that have some. *)
Definition quoted (s : string) : string := dquote ++ s ++ dquote.

(** [None] stands for the [undefined] that [JSON.stringify(undefined)]
    returns. *)
Fixpoint json (v : value) : option string :=
  match v with
  | VUndefined => None
  | VNull => Some "null"
  | VBool true => Some "true"
  | VBool false => Some "false"
  | VNum n => Some (Z_to_string n)
  | VStr s => Some (quote s)
  | VArr l =>
      Some ("[" ++ join_with ","
                     (map (fun e => match json e with
                                    | Some t => t
                                    | None => "null"
                                    end) l) ++ "]")
  | VObj fs =>
      Some ("{" ++ join_with ","
                     ((fix members (fs : list (string * value)) : list string :=
                         match fs with
                         | [] => []
                         | (k, e) :: rest =>
                             match json e with
                             | Some t => (quote k ++ ":" ++ t) :: members rest
                             | None => members rest
                             end
                         end) fs) ++ "}")
  end.

(** [`${JSON.stringify(v)}`] *)
Definition JSON_stringify (v : value) : string :=
  match json v with Some t => t | None => "undefined" end.

(* ------------------------------------------------------------------------- *)
(** ** Dates *)
(* ------------------------------------------------------------------------- *)

Fixpoint zeros (n : nat) : string :=
  match n with
  | O => ""
  | S n' => "0" ++ zeros n'
  end.

Definition pad_left (n : nat) (s : string) : string :=
  zeros (n - String.length s) ++ s.

Definition padn (n : nat) (x : Z) : string := pad_left n (nat_digits x).

(** Proleptic Gregorian date of a day number counted from 1970-01-01. *)
Definition civil (days : Z) : Z * Z * Z :=
  let z := days + 719468 in
  let era := z / 146097 in
  let doe := z - era * 146097 in
  let yoe := (doe - doe / 1460 + doe / 36524 - doe / 146096) / 365 in
  let doy := doe - (365 * yoe + yoe / 4 - yoe / 100) in
  let mp := (5 * doy + 2) / 153 in
  let d := doy - (153 * mp + 2) / 5 + 1 in
  let m := if mp <? 10 then mp + 3 else mp - 9 in
  let y := yoe + era * 400 + (if m <=? 2 then 1 else 0) in
  (y, m, d).

(** [new Date(ms).toISOString()] *)
Definition toISOString (ms : Z) : string :=
  let '(y, m, d) := civil (ms / 86400000) in
  let t := ms mod 86400000 in
  let year :=
    if (0 <=? y) && (y <=? 9999) then padn 4 y
    else if y <? 0 then "-" ++ padn 6 (- y) else "+" ++ padn 6 y in
  year ++ "-" ++ padn 2 m ++ "-" ++ padn 2 d ++ "T" ++
  padn 2 (t / 3600000) ++ ":" ++ padn 2 (t / 60000 mod 60) ++ ":" ++
  padn 2 (t / 1000 mod 60) ++ "." ++ padn 3 (t mod 1000) ++ "Z".


(* ------------------------------------------------------------------------- *)
(** ** Data model *)
(* ------------------------------------------------------------------------- *)

(** The receipt object built by the resolve handler and by the timeout
    callback.  [completed_at] is kept as the instant; the JSON shows
    [toISOString] of it. *)
Module Receipt.
Record t : Type := mk {
  request_id : string;
  status : string;
  result : value;
  reason : value;
  completed_by : string;
  completed_at : Z;
  duration_seconds : Z;
  evidence_hash : string
}.

Definition to_value (r : t) : value :=
  VObj [ ("request_id", VStr (request_id r));
         ("status", VStr (status r));
         ("result", result r);
         ("reason", reason r);
         ("completed_by", VStr (completed_by r));
         ("completed_at", VStr (toISOString (completed_at r)));
         ("duration_seconds", VNum (duration_seconds r));
         ("evidence_hash", VStr (evidence_hash r)) ].
End Receipt.

(** The request object stored in the [requests] Map.  [receipt = None] is
    the JS [null]. *)
Module Request.
Record t : Type := mk {
  request_id : string;
  action : value;
  role : value;
  priority : value;
  timeout_seconds : Z;
  fallback : value;
  agent_id : value;
  project_id : value;
  metadata : value;
  payload : value;
  status : string;
  created_at : Z;
  expires_at : option Z;
  receipt : option Receipt.t
}.

Definition set_status (s : string) (r : t) : t :=
  mk (request_id r) (action r) (role r) (priority r) (timeout_seconds r)
     (fallback r) (agent_id r) (project_id r) (metadata r) (payload r)
     s (created_at r) (expires_at r) (receipt r).

Definition set_receipt (rc : option Receipt.t) (r : t) : t :=
  mk (request_id r) (action r) (role r) (priority r) (timeout_seconds r)
     (fallback r) (agent_id r) (project_id r) (metadata r) (payload r)
     (status r) (created_at r) (expires_at r) rc.

Definition receipt_value (r : t) : value :=
  match receipt r with
  | Some rc => Receipt.to_value rc
  | None => VNull
  end.

Definition to_value (r : t) : value :=
  VObj [ ("request_id", VStr (request_id r));
         ("action", action r);
         ("role", role r);
         ("priority", priority r);
         ("timeout_seconds", VNum (timeout_seconds r));
         ("fallback", fallback r);
         ("agent_id", agent_id r);
         ("project_id", project_id r);
         ("metadata", metadata r);
         ("payload", payload r);
         ("status", VStr (status r));
         ("created_at", VStr (toISOString (created_at r)));
         ("expires_at", match expires_at r with
                        | Some e => VStr (toISOString e)
                        | None => VNull
                        end);
         ("receipt", receipt_value r) ].
End Request.

(** The body of [POST /hxp/v1/requests] after JSON parsing; an absent
    property is [VUndefined].  [timeout_seconds] is an integer number or
    absent: other JSON values there are outside the model. *)
Module Body.
Record t : Type := mk {
  action : value;
  role : value;
  priority : value;
  timeout_seconds : option Z;
  fallback : value;
  agent_id : value;
  project_id : value;
  metadata : value;
  payload : value
}.
End Body.

(** What the closure passed to [setTimeout] captures. *)
Record timer : Type := mkTimer {
  t_requestId : string;
  t_fallback : value;
  t_action : value;
  t_payload : value;
  t_timeout_seconds : Z
}.

(** A WebSocket: its handle and its [readyState] (1 is OPEN). *)
Record ws : Type := mkWs { ws_handle : nat; readyState : Z }.

(** The [requests] Map, in insertion order. *)
Definition store : Type := list (string * Request.t).

Fixpoint map_set {A : Type} (k : string) (a : A) (m : list (string * A))
  : list (string * A) :=
  match m with
  | [] => [(k, a)]
  | (k', a') :: rest =>
      if (k' =? k)%string then (k, a) :: rest else (k', a') :: map_set k a rest
  end.

Fixpoint map_delete {A : Type} (k : string) (m : list (string * A))
  : list (string * A) :=
  match m with
  | [] => []
  | (k', a') :: rest =>
      if (k' =? k)%string then rest else (k', a') :: map_delete k rest
  end.

Definition map_values {A : Type} (m : list (string * A)) : list A := map snd m.

Record state : Type := mkState {
  requests : store;
  wsSubscriptions : list (string * list ws);
  timers : list timer
}.

Definition initial : state := mkState [] [] [].

Definition with_requests (st : state) (m : store) : state :=
  mkState m (wsSubscriptions st) (timers st).

(** An HTTP response: status code, the headers the handler sets, and the
    value handed to [res.json]. *)
Record response : Type := mkResponse {
  http_status : Z;
  headers : list (string * string);
  body : value
}.

Definition error_response (code : Z) (error message : string) : response :=
  mkResponse code [] (VObj [("error", VStr error); ("message", VStr message)]).

(** A frame sent on a socket: the handle and the text. *)
Definition frame : Type := (nat * string)%type.

(** What a function that may throw gives back. *)
Inductive outcome (A : Type) : Type :=
| Ret (a : A)
| Throw.
Arguments Ret {A} a.
Arguments Throw {A}.

(* ------------------------------------------------------------------------- *)
(** ** The server *)
(* ------------------------------------------------------------------------- *)

Section Server.

(** Configuration read from the environment when the process starts. *)
Variable SERVER_SECRET : string.
Variable PORT : string.

Definition VALID_ACTIONS : list value := [VStr "DECIDE"; VStr "APPROVE"; VStr "PROVIDE"].
Definition VALID_ROLES : list value := [VStr "owner"; VStr "delegate"; VStr "pool"].

Definition generateEvidenceHash (requestId : string) (result : value)
  (completedAt : string) : string :=
  let data := requestId ++ ":" ++ JSON_stringify result ++ ":" ++ completedAt
              ++ ":" ++ SERVER_SECRET in
  Sha256.sha256_hex data.

(** [Array.isArray(v) && 2 <= v.length <= 6], negated in the source. *)
Definition bad_options (v : value) : bool :=
  match v with
  | VArr l => (Z.of_nat (length l) <? 2) || (6 <? Z.of_nat (length l))
  | _ => true
  end.

(** [validatePayload]: [Ret None] is the JS [null] (no error); reading a
    property of a [null] payload throws. *)
Definition validatePayload (action payload : value) : outcome (option string) :=
  if strict_eq action (VStr "DECIDE") then
    if nullish payload then Throw
    else if negb (truthy (prop payload "question"))
            || negb (is_string (prop payload "question"))
    then Ret (Some ("DECIDE requires a " ++ quoted "question"
                    ++ " string in payload"))
    else if bad_options (prop payload "options")
    then Ret (Some ("DECIDE requires " ++ quoted "options"
                    ++ " array with 2-6 items"))
    else Ret None
  else if strict_eq action (VStr "APPROVE") then
    if nullish payload then Throw
    else if negb (truthy (prop payload "item"))
            || negb (is_string (prop payload "item"))
    then Ret (Some ("APPROVE requires an " ++ quoted "item"
                    ++ " string in payload"))
    else Ret None
  else if strict_eq action (VStr "PROVIDE") then
    if nullish payload then Throw
    else if negb (truthy (prop payload "prompt"))
            || negb (is_string (prop payload "prompt"))
    then Ret (Some ("PROVIDE requires a " ++ quoted "prompt"
                    ++ " string in payload"))
    else if negb (truthy (prop payload "input_type"))
    then Ret (Some ("PROVIDE requires an " ++ quoted "input_type"
                    ++ " in payload"))
    else Ret None
  else Ret (Some ("Unknown action: " ++ to_string action)).

(** [validateResult].  A stored DECIDE request has an array of options,
    [validatePayload] having seen to it; on a payload without [options] the
    call of [includes] throws. *)
Definition validateResult (request : Request.t) (result : value)
  : outcome (option string) :=
  if strict_eq (Request.action request) (VStr "DECIDE") then
    match prop (Request.payload request) "options" with
    | VArr options =>
        if negb (includes options result)
        then Ret (Some ("Result must be one of: " ++ join ", " options))
        else Ret None
    | _ => Throw
    end
  else if strict_eq (Request.action request) (VStr "APPROVE") then
    if negb (includes [VStr "approved"; VStr "rejected"] result)
    then Ret (Some ("Result must be " ++ quoted "approved" ++ " or "
                    ++ quoted "rejected"))
    else Ret None
  else if strict_eq (Request.action request) (VStr "PROVIDE") then
    if strict_eq result VNull || strict_eq result VUndefined
       || strict_eq result (VStr "")
    then Ret (Some "PROVIDE result cannot be empty")
    else Ret None
  else Ret None.

(** [notifySubscribers]: the frames sent, one per subscribed socket that is
    OPEN. *)
Definition notifySubscribers (st : state) (requestId : string) (event : value)
  : list frame :=
  match assoc requestId (wsSubscriptions st) with
  | Some subs =>
      let message := JSON_stringify event in
      map (fun s => (ws_handle s, message))
          (filter (fun s => readyState s =? 1) subs)
  | None => []
  end.

(** What Express answers when a handler throws. *)
Definition internal_error : response :=
  mkResponse 500 [] VUndefined.

(** [v || d] *)
Definition or_else (v d : value) : value := if truthy v then v else d.

(** Destructuring default: [const { k = d } = o] with [v] for [o.k]. *)
Definition default_to (d v : value) : value :=
  match v with VUndefined => d | _ => v end.

(** [uuidv4().replace(/-/g, '').slice(0, 12)] *)
Fixpoint strip_dashes (s : string) : string :=
  match s with
  | EmptyString => ""
  | String c rest =>
      if (c =? "-")%char then strip_dashes rest else String c (strip_dashes rest)
  end.

Definition make_request_id (uuid : string) : string :=
  "hxp_" ++ substring 0 12 (strip_dashes uuid).

(** A [Date] holds at most 8.64e15 ms either side of the epoch;
    [toISOString] throws beyond. *)
Definition valid_date (ms : Z) : bool :=
  (-8640000000000000 <=? ms) && (ms <=? 8640000000000000).

(** [POST /hxp/v1/requests].  [uuid] is what [uuidv4()] returns, [now] the
    clock read by [new Date()] and [date_now] the one read by [Date.now()]. *)
Definition create (st : state) (b : Body.t) (uuid : string) (now date_now : Z)
  : state * response :=
  let action := Body.action b in
  let role := default_to (VStr "owner") (Body.role b) in
  let priority := default_to (VStr "normal") (Body.priority b) in
  let timeout_seconds := match Body.timeout_seconds b with Some n => n | None => 0 end in
  let fallback := default_to (VStr "pause") (Body.fallback b) in
  let metadata := default_to (VObj []) (Body.metadata b) in
  let payload := default_to (VObj []) (Body.payload b) in
  if negb (includes VALID_ACTIONS action) then
    (st, error_response 400 "invalid_action"
           ("Action must be one of: " ++ join ", " VALID_ACTIONS))
  else if negb (includes VALID_ROLES role) then
    (st, error_response 400 "invalid_role"
           ("Role must be one of: " ++ join ", " VALID_ROLES))
  else
    match validatePayload action payload with
    | Throw => (st, internal_error)
    | Ret (Some payloadError) =>
        (st, error_response 400 "invalid_payload" payloadError)
    | Ret None =>
        let requestId := make_request_id uuid in
        if (0 <? timeout_seconds)
           && negb (valid_date (date_now + timeout_seconds * 1000))
        then (st, internal_error)
        else
          let expiresAt :=
            if 0 <? timeout_seconds
            then Some (date_now + timeout_seconds * 1000) else None in
          let request :=
            Request.mk requestId action role priority timeout_seconds fallback
              (or_else (Body.agent_id b) (VStr "unknown"))
              (or_else (Body.project_id b) VNull)
              metadata payload "pending" now expiresAt None in
          let armed :=
            if 0 <? timeout_seconds
            then (timers st ++ [mkTimer requestId fallback action payload
                                  timeout_seconds])%list
            else timers st in
          let expires_value :=
            match expiresAt with
            | Some e => VStr (toISOString e)
            | None => VNull
            end in
          (mkState (map_set requestId request (requests st))
                   (wsSubscriptions st) armed,
           mkResponse 201
             [("HXP-Status", "pending"); ("HXP-Request-Id", requestId)]
             (VObj [ ("request_id", VStr requestId);
                     ("status", VStr "pending");
                     ("created_at", VStr (toISOString now));
                     ("expires_at", expires_value);
                     ("poll_url", VStr ("/hxp/v1/requests/" ++ requestId));
                     ("ws_url", VStr ("ws://localhost:" ++ PORT
                                      ++ "/hxp/ws?request_id=" ++ requestId)) ]))
    end.

(** The callback given to [setTimeout] by the create handler.  [now1] and
    [now2] are the two clock readings of the two [new Date()] in the
    receipt literal, in evaluation order. *)
Definition timeout_callback (st : state) (tm : timer) (now1 now2 : Z)
  : state * list frame :=
  match assoc (t_requestId tm) (requests st) with
  | Some req =>
      if (Request.status req =? "pending")%string then
        let expired := Request.set_status "expired" req in
        let req' :=
          if strict_eq (t_fallback tm) (VStr "default")
             && strict_eq (t_action tm) (VStr "DECIDE")
             && truthy (prop (t_payload tm) "default_option")
          then
            Request.set_receipt
              (Some (Receipt.mk (t_requestId tm) "completed"
                       (prop (t_payload tm) "default_option")
                       (VStr "Timeout — default option applied")
                       "system" now1 (t_timeout_seconds tm)
                       (generateEvidenceHash (t_requestId tm)
                          (prop (t_payload tm) "default_option")
                          (toISOString now2))))
              (Request.set_status "completed" expired)
          else expired in
        let st' := with_requests st (map_set (t_requestId tm) req' (requests st)) in
        (st', notifySubscribers st' (t_requestId tm)
                (VObj [ ("event", VStr (Request.status req'));
                        ("receipt", Request.receipt_value req') ]))
      else (st, [])
  | None => (st, [])
  end.

(** [GET /hxp/v1/requests/:id] *)
Definition get_request (st : state) (id : string) : response :=
  match assoc id (requests st) with
  | None => error_response 404 "not_found" "Request not found"
  | Some request =>
      mkResponse 200
        [("HXP-Status", Request.status request); ("HXP-Request-Id", id)]
        (Request.to_value request)
  end.

(** [POST /hxp/v1/requests/:id/cancel] *)
Definition cancel (st : state) (id : string) : state * response * list frame :=
  match assoc id (requests st) with
  | None => (st, error_response 404 "not_found" "Request not found", [])
  | Some request =>
      if negb (Request.status request =? "pending")%string
         && negb (Request.status request =? "assigned")%string
      then (st, error_response 409 "conflict" "Request already resolved", [])
      else
        let st' := with_requests st
                     (map_set id (Request.set_status "cancelled" request)
                        (requests st)) in
        (st',
         mkResponse 200 []
           (VObj [("request_id", VStr id); ("status", VStr "cancelled")]),
         notifySubscribers st' id (VObj [("event", VStr "cancelled")]))
  end.

(** [Math.round(ms / 1000)]: to the nearest integer, halves upwards. *)
Definition round_seconds (ms : Z) : Z := (ms + 500) / 1000.

(** [POST /hxp/v1/requests/:id/resolve].  [humanId] is what the
    authentication middleware stored in [req.humanId]; [now] is the clock
    read for [completedAt]. *)
Definition resolve (st : state) (id humanId : string) (result reason : value)
  (now : Z) : state * response * list frame :=
  match assoc id (requests st) with
  | None => (st, error_response 404 "not_found" "Request not found", [])
  | Some request =>
      if (Request.status request =? "completed")%string
         || (Request.status request =? "cancelled")%string
      then (st, error_response 409 "conflict" "Request already resolved", [])
      else if (Request.status request =? "expired")%string
      then (st, error_response 409 "expired" "Request has expired", [])
      else if strict_eq result VUndefined || strict_eq result VNull
      then (st, error_response 400 "missing_result" "Result is required", [])
      else
        match validateResult request result with
        | Throw => (st, internal_error, [])
        | Ret (Some resultError) =>
            (st, error_response 422 "invalid_result" resultError, [])
        | Ret None =>
            if strict_eq (Request.action request) (VStr "APPROVE")
               && strict_eq result (VStr "rejected")
               && truthy (prop (Request.payload request) "reject_requires_reason")
               && negb (truthy reason)
            then (st, error_response 422 "reason_required"
                        "A reason is required when rejecting this request", [])
            else
              let completedAt := toISOString now in
              let durationSeconds :=
                round_seconds (now - Request.created_at request) in
              let receipt :=
                Receipt.mk id "completed" result (or_else reason VNull) humanId
                  now durationSeconds
                  (generateEvidenceHash id result completedAt) in
              let st' :=
                with_requests st
                  (map_set id
                     (Request.set_receipt (Some receipt)
                        (Request.set_status "completed" request))
                     (requests st)) in
              (st',
               mkResponse 200
                 [("HXP-Status", "completed"); ("HXP-Request-Id", id)]
                 (VObj [("receipt", Receipt.to_value receipt)]),
               notifySubscribers st' id
                 (VObj [ ("event", VStr "completed");
                         ("receipt", Receipt.to_value receipt) ]))
        end
  end.

(** *** The inbox *)

(** A JS number met by the comparator: an integer or NaN. *)
Inductive number : Type :=
| Num (n : Z)
| NaN.

(** Names every object inherits from [Object.prototype]: a lookup of one of
    them in the [priorityOrder] literal finds a function (or the prototype
    itself), which arithmetic turns into NaN. *)
Definition inherited_names : list string :=
  [ "constructor"; "__defineGetter__"; "__defineSetter__"; "hasOwnProperty";
    "__lookupGetter__"; "__lookupSetter__"; "isPrototypeOf";
    "propertyIsEnumerable"; "toString"; "valueOf"; "__proto__";
    "toLocaleString" ].

(** [(priorityOrder[p] || 2)] as a number.  The entry [critical: 0] is falsy
    and so gives 2. *)
Definition priority_rank (p : value) : number :=
  let key := to_string p in
  match assoc key [("critical", 0); ("high", 1); ("normal", 2); ("low", 3)] with
  | Some n => if n =? 0 then Num 2 else Num n
  | None =>
      if existsb (fun k => (k =? key)%string) inherited_names then NaN
      else Num 2
  end.

Definition minus (a b : number) : number :=
  match a, b with
  | Num x, Num y => Num (x - y)
  | _, _ => NaN
  end.

(** The comparator handed to [results.sort] by the inbox. *)
Definition inbox_compare (a b : Request.t) : number :=
  let pDiff := minus (priority_rank (Request.priority a))
                     (priority_rank (Request.priority b)) in
  match pDiff with
  | Num 0 => Num (Request.created_at b - Request.created_at a)
  | _ => pDiff
  end.

(** [Array.prototype.sort]: stable; a comparator result that is NaN counts
    as 0.  With a consistent comparator every stable sort returns this
    list; otherwise the order is left to the implementation, and only the
    fact that the result is a rearrangement is used below. *)
Section Sort.
Context {A : Type} (cmp : A -> A -> number).

Definition before (x y : A) : bool :=
  match cmp x y with
  | Num n => n <=? 0
  | NaN => true
  end.

Fixpoint insert (x : A) (l : list A) : list A :=
  match l with
  | [] => [x]
  | y :: rest => if before x y then x :: y :: rest else y :: insert x rest
  end.

Fixpoint sort (l : list A) : list A :=
  match l with
  | [] => []
  | x :: rest => insert x (sort rest)
  end.
End Sort.

(** The [results] array of [GET /hxp/v1/inbox] once sorted.  The arguments
    are the three properties read from [req.query]. *)
Definition inbox_results (st : state) (q_status q_priority q_action : value)
  : list Request.t :=
  let status := default_to (VStr "pending") q_status in
  let results :=
    filter (fun r => strict_eq (VStr (Request.status r)) status
                     || (Request.status r =? "assigned")%string)
           (map_values (requests st)) in
  let results :=
    if truthy q_priority
    then filter (fun r => strict_eq (Request.priority r) q_priority) results
    else results in
  let results :=
    if truthy q_action
    then filter (fun r => strict_eq (Request.action r) q_action) results
    else results in
  sort inbox_compare results.

Definition count_pending (results : list Request.t) : Z :=
  Z.of_nat (length (filter (fun r => (Request.status r =? "pending")%string)
                           results)).

Definition inbox (st : state) (q_status q_priority q_action : value) : response :=
  let results := inbox_results st q_status q_priority q_action in
  mkResponse 200 []
    (VObj [ ("requests", VArr (map Request.to_value results));
            ("total", VNum (Z.of_nat (length results)));
            ("unresolved", VNum (count_pending results)) ]).

(** *** WebSocket subscriptions *)

(** The ['connection'] handler: [requestId] is the [request_id] of the
    URL's query. *)
Definition ws_connection (st : state) (sock : ws) (requestId : option string)
  : state * list frame :=
  match requestId with
  | Some id =>
      if (id =? "")%string then (st, [])
      else
        let subs :=
          match assoc id (wsSubscriptions st) with
          | Some l => l
          | None => []
          end in
        let subs' :=
          if existsb (fun s => Nat.eqb (ws_handle s) (ws_handle sock)) subs
          then subs else (subs ++ [sock])%list in
        let st' := mkState (requests st)
                     (map_set id subs' (wsSubscriptions st)) (timers st) in
        match assoc id (requests st) with
        | Some request =>
            match Request.receipt request with
            | Some rc =>
                (st', [(ws_handle sock,
                        JSON_stringify
                          (VObj [ ("event", VStr "completed");
                                  ("receipt", Receipt.to_value rc) ]))])
            | None => (st', [])
            end
        | None => (st', [])
        end
  | None => (st, [])
  end.

(** The ['close'] handler of a socket subscribed to [requestId]. *)
Definition ws_close (st : state) (handle : nat) (requestId : string) : state :=
  match assoc requestId (wsSubscriptions st) with
  | Some subs =>
      let subs' := filter (fun s => negb (Nat.eqb (ws_handle s) handle)) subs in
      mkState (requests st)
        (match subs' with
         | [] => map_delete requestId (wsSubscriptions st)
         | _ => map_set requestId subs' (wsSubscriptions st)
         end)
        (timers st)
  | None => st
  end.

(** A socket changing its [readyState]. *)
Definition ws_ready_state (st : state) (handle : nat) (rs : Z) : state :=
  mkState (requests st)
    (map (fun kv =>
            (fst kv,
             map (fun s => if Nat.eqb (ws_handle s) handle
                           then mkWs handle rs else s) (snd kv)))
         (wsSubscriptions st))
    (timers st).

(** *** Runs of the server *)

(** What happens to the process: a request on one of the routes, an armed
    timer firing, or a socket event.  Handlers and callbacks run one at a
    time. *)
Inductive op : Type :=
| Create (b : Body.t) (uuid : string) (now date_now : Z)
| Get (id : string)
| Cancel (id : string)
| Inbox (q_status q_priority q_action : value)
| Resolve (id humanId : string) (result reason : value) (now : Z)
| Fire (n : nat) (now1 now2 : Z)
| WsConnection (sock : ws) (requestId : option string)
| WsClose (handle : nat) (requestId : string)
| WsReadyState (handle : nat) (rs : Z).

(** Removes the [n]-th armed timer: a timer fires once. *)
Fixpoint remove_nth {A : Type} (n : nat) (l : list A) : list A :=
  match n, l with
  | _, [] => []
  | O, _ :: rest => rest
  | S n', x :: rest => x :: remove_nth n' rest
  end.

Definition fire (st : state) (n : nat) (now1 now2 : Z) : state * list frame :=
  match nth_error (timers st) n with
  | Some tm =>
      timeout_callback
        (mkState (requests st) (wsSubscriptions st) (remove_nth n (timers st)))
        tm now1 now2
  | None => (st, [])
  end.

Definition step (st : state) (o : op) : state * option response * list frame :=
  match o with
  | Create b uuid now date_now =>
      let '(st', r) := create st b uuid now date_now in (st', Some r, [])
  | Get id => (st, Some (get_request st id), [])
  | Cancel id =>
      let '(st', r, fs) := cancel st id in (st', Some r, fs)
  | Inbox s p a => (st, Some (inbox st s p a), [])
  | Resolve id h result reason now =>
      let '(st', r, fs) := resolve st id h result reason now in (st', Some r, fs)
  | Fire n now1 now2 =>
      let '(st', fs) := fire st n now1 now2 in (st', None, fs)
  | WsConnection sock requestId =>
      let '(st', fs) := ws_connection st sock requestId in (st', None, fs)
  | WsClose h requestId => (ws_close st h requestId, None, [])
  | WsReadyState h rs => (ws_ready_state st h rs, None, [])
  end.

Definition run (st : state) (ops : list op) : state :=
  fold_left (fun s o => fst (fst (step s o))) ops st.

End Server.

(* ------------------------------------------------------------------------- *)
(** ** The other routes and the middleware *)
(* ------------------------------------------------------------------------- *)

(** *** Authentication *)

(** [s.split(',')] *)
Fixpoint split_commas (s : string) : list string :=
  match s with
  | EmptyString => [""]
  | String c rest =>
      if (c =? ",")%char then "" :: split_commas rest
      else match split_commas rest with
           | h :: t => String c h :: t
           | [] => [String c ""]
           end
  end.

(** [new Set((process.env.X || fallback).split(','))]: [env] is the
    variable of the environment, [None] when it is not set. *)
Definition key_set (env : option string) (fallback : string) : list string :=
  split_commas
    (match env with
     | Some s => if (s =? "")%string then fallback else s
     | None => fallback
     end).

(** [set.has(token)] *)
Definition has (keys : list string) (token : string) : bool :=
  existsb (fun k => (k =? token)%string) keys.

(** What a middleware does: answer itself, or call [next] having stored
    the token in the request. *)
Inductive auth_result : Type :=
| Denied (r : response)
| Granted (token : string).

(** [auth.slice(7)] *)
Definition slice_from (n : nat) (s : string) : string :=
  substring n (String.length s - n) s.

(** The body shared by [requireAgentAuth] and [requireHumanAuth];
    [authorization] is [req.headers.authorization], [None] when the header
    is absent. *)
Definition require_bearer (keys : list string) (invalid : string)
  (authorization : option string) : auth_result :=
  match authorization with
  | None => Denied (error_response 401 "unauthorized" "Missing Bearer token")
  | Some auth =>
      if (auth =? "")%string || negb (prefix "Bearer " auth)
      then Denied (error_response 401 "unauthorized" "Missing Bearer token")
      else
        let token := slice_from 7 auth in
        if negb (has keys token)
        then Denied (error_response 401 "unauthorized" invalid)
        else Granted token
  end.

Definition requireAgentAuth (AGENT_API_KEYS : list string)
  (authorization : option string) : auth_result :=
  require_bearer AGENT_API_KEYS "Invalid agent API key" authorization.

Definition requireHumanAuth (HUMAN_TOKENS : list string)
  (authorization : option string) : auth_result :=
  require_bearer HUMAN_TOKENS "Invalid human token" authorization.

(** *** The agent's listing *)

(** [arr.slice(0, end)] for [end] a number: NaN counts as 0, a negative end
    counts from the end of the array. *)
Definition slice_to {A : Type} (l : list A) (last : number) : list A :=
  match last with
  | NaN => []
  | Num e =>
      if e <? 0 then firstn (Z.to_nat (Z.of_nat (length l) + e)) l
      else firstn (Z.to_nat e) l
  end.

(** The comparator of the listing: newest first. *)
Definition newest_first (a b : Request.t) : number :=
  Num (Request.created_at b - Request.created_at a).

(** The [results] array of [GET /hxp/v1/requests]. The first three
    arguments are properties of [req.query]; [limit] is the number
    [parseInt(limit)] evaluates to, 20 when the query has no [limit]. *)
Definition list_results (st : state) (q_agent_id q_project_id q_status : value)
  (limit : number) : list Request.t :=
  let results := map_values (requests st) in
  let results :=
    if truthy q_agent_id
    then filter (fun r => strict_eq (Request.agent_id r) q_agent_id) results
    else results in
  let results :=
    if truthy q_project_id
    then filter (fun r => strict_eq (Request.project_id r) q_project_id) results
    else results in
  let results :=
    if truthy q_status
    then filter (fun r => strict_eq (VStr (Request.status r)) q_status) results
    else results in
  slice_to (sort newest_first results) limit.

Definition list_requests (st : state) (q_agent_id q_project_id q_status : value)
  (limit : number) : response :=
  let results := list_results st q_agent_id q_project_id q_status limit in
  mkResponse 200 []
    (VObj [ ("requests", VArr (map Request.to_value results));
            ("total", VNum (Z.of_nat (length results))) ]).

(** *** The statistics *)

(** The object of [GET /hxp/v1/stats]. The source divides [duration_sum] by
    [duration_count] in floating point for its [avg_duration_seconds]; the
    two integers are kept here instead of the quotient. *)
Module Stats.
Record t : Type := mk {
  total : Z;
  pending : Z;
  completed : Z;
  expired : Z;
  failed : Z;
  duration_sum : Z;
  duration_count : Z
}.
End Stats.

Definition count_status (s : string) (all : list Request.t) : Z :=
  Z.of_nat (length (filter (fun r => (Request.status r =? s)%string) all)).

Definition has_receipt (r : Request.t) : bool :=
  match Request.receipt r with Some _ => true | None => false end.

Definition stats (st : state) : Stats.t :=
  let all := map_values (requests st) in
  let with_receipt := filter has_receipt all in
  Stats.mk
    (Z.of_nat (length all))
    (count_status "pending" all)
    (count_status "completed" all)
    (count_status "expired" all)
    (count_status "failed" all)
    (fold_left
       (fun sum r =>
          match Request.receipt r with
          | Some rc => sum + Receipt.duration_seconds rc
          | None => sum
          end) with_receipt 0)
    (if Z.of_nat (length with_receipt) =? 0 then 1
     else Z.of_nat (length with_receipt)).

(** *** The delegation rules *)

(** [POST /hxp/v1/delegation/rules]: the body is pushed as it is. *)
Definition add_rule (delegationRules : list value) (rule : value)
  : list value * response :=
  ((delegationRules ++ [rule])%list, mkResponse 201 [] rule).

(** [GET /hxp/v1/delegation/rules] *)
Definition get_rules (delegationRules : list value) : response :=
  mkResponse 200 [] (VObj [("rules", VArr delegationRules)]).

(* ------------------------------------------------------------------------- *)
(** ** Predicates used by the statements *)
(* ------------------------------------------------------------------------- *)

(** The receipt is there exactly when the status is [completed]. *)
Definition receipt_iff_completed (r : Request.t) : Prop :=
  Request.receipt r <> None <-> Request.status r = "completed".

(** The statuses the server ever writes. *)
Definition written_statuses : list string :=
  ["pending"; "completed"; "cancelled"; "expired"].

Definition statuses_ok (st : state) : Prop :=
  forall id r, In (id, r) (requests st) -> In (Request.status r) written_statuses.

(** What both invariants say of one request. *)
Definition request_ok (r : Request.t) : Prop :=
  In (Request.status r) written_statuses /\ receipt_iff_completed r.

(** Every stored request satisfies [P]. *)
Definition all_requests (P : Request.t -> Prop) (st : state) : Prop :=
  forall id r, In (id, r) (requests st) -> P r.

(** The payload of a stored request passed [validatePayload] for its
    action. *)
Definition payload_ok (r : Request.t) : Prop :=
  validatePayload (Request.action r) (Request.payload r) = Ret None.

(** What a step may put into the store [m]: a fresh pending request whose
    payload was validated; a stored request that was pending or assigned,
    now [cancelled] or [expired]; a stored request now [completed] and
    given a receipt. *)
Inductive writes (m : store) (r' : Request.t) : Prop :=
| writes_created :
    Request.status r' = "pending" ->
    Request.receipt r' = None ->
    payload_ok r' ->
    writes m r'
| writes_closed (id : string) (r : Request.t) (s : string) :
    In (id, r) m ->
    Request.status r = "pending" \/ Request.status r = "assigned" ->
    s = "cancelled" \/ s = "expired" ->
    r' = Request.set_status s r ->
    writes m r'
| writes_completed (id : string) (r : Request.t) (rc : Receipt.t) :
    In (id, r) m ->
    r' = Request.set_receipt (Some rc) (Request.set_status "completed" r) ->
    writes m r'.

(** The store after a step is the store before, or that store with one
    entry set to a request the step [writes]. *)
Definition store_step (m m' : store) : Prop :=
  m' = m \/ exists id r', m' = map_set id r' m /\ writes m r'.

(** The statuses from which no transition is allowed. *)
Definition terminal_statuses : list string :=
  ["completed"; "cancelled"; "failed"; "expired"].

(** [tm] is the closure the create handler arms for the request [r]. *)
Definition armed_for (tm : timer) (r : Request.t) : Prop :=
  t_requestId tm = Request.request_id r /\
  t_fallback tm = Request.fallback r /\
  t_action tm = Request.action r /\
  t_payload tm = Request.payload r /\
  t_timeout_seconds tm = Request.timeout_seconds r.

(** Every armed timer is the closure of the request now stored under its
    id. *)
Definition timers_armed (st : state) : Prop :=
  forall tm, In tm (timers st) ->
    exists r, assoc (t_requestId tm) (requests st) = Some r /\ armed_for tm r.

(** The ids the creates of a run are given, in order. *)
Fixpoint created_ids (ops : list op) : list string :=
  match ops with
  | [] => []
  | Create _ uuid _ _ :: rest => make_request_id uuid :: created_ids rest
  | _ :: rest => created_ids rest
  end.

(** The payload [p] of a DECIDE request is as the protocol documents it:
    [options] is an array of non-empty strings, and [default_option], when
    the payload has one, is one of them. *)
Definition documented_decide (p : value) : Prop :=
  exists options,
    prop p "options" = VArr options
    /\ Forall (fun o => exists s, o = VStr s /\ s <> "") options
    /\ (prop p "default_option" <> VUndefined ->
        In (prop p "default_option") options).

(** The configuration the server falls back to when the environment sets
    nothing. *)
Definition dev_secret : string := "hxp-dev-secret-change-me".
Definition dev_port : string := "3402".

(** [out] is a successful resolution of [id] with [result]: the answer is
    200 with the receipt, and the stored request is [completed] and carries
    that receipt. *)
Definition completes (out : state * response * list frame) (id : string)
  (result : value) : Prop :=
  exists r' rc,
    http_status (snd (fst out)) = 200
    /\ body (snd (fst out)) = VObj [("receipt", Receipt.to_value rc)]
    /\ assoc id (requests (fst (fst out))) = Some r'
    /\ Request.status r' = "completed"
    /\ Request.receipt r' = Some rc
    /\ Receipt.result rc = result.

(** The digest the specification asks of a receipt's evidence hash: the one
    computed over the receipt's own fields. *)
Definition hash_of_receipt (SERVER_SECRET : string) (rc : Receipt.t) : string :=
  generateEvidenceHash SERVER_SECRET (Receipt.request_id rc) (Receipt.result rc)
    (toISOString (Receipt.completed_at rc)).

(** The status and the receipt stored under [id]. *)
Definition status_of (st : state) (id : string) : option string :=
  option_map Request.status (assoc id (requests st)).

Definition receipt_of (st : state) (id : string) : option Receipt.t :=
  match assoc id (requests st) with
  | Some r => Request.receipt r
  | None => None
  end.

(** The predicate the inbox applies to a stored request, for the query
    [status=s] and the optional [priority] and [action]. *)
Definition inbox_keeps (s : string) (q_priority q_action : value)
  (r : Request.t) : bool :=
  ((Request.status r =? s)%string || (Request.status r =? "assigned")%string)
  && (if truthy q_priority then strict_eq (Request.priority r) q_priority else true)
  && (if truthy q_action then strict_eq (Request.action r) q_action else true).

(** The frames sent during a run, in order. *)
Fixpoint frames_of (SERVER_SECRET PORT : string) (st : state) (ops : list op)
  : list frame :=
  match ops with
  | [] => []
  | o :: rest =>
      (snd (step SERVER_SECRET PORT st o)
       ++ frames_of SERVER_SECRET PORT (fst (fst (step SERVER_SECRET PORT st o))) rest)%list
  end.

(** A step that arms no timer: any step but a create with a positive
    timeout. *)
Definition untimed (o : op) : Prop :=
  match o with
  | Create b _ _ _ =>
      match Body.timeout_seconds b with
      | Some n => n <= 0
      | None => True
      end
  | _ => True
  end.

(** The request stored under [id] names [id] as its own id, and so does
    its receipt if it has one, whose status is [completed]. *)
Definition refers_to (id : string) (r : Request.t) : Prop :=
  Request.request_id r = id
  /\ forall rc, Request.receipt r = Some rc ->
       Receipt.request_id rc = id /\ Receipt.status rc = "completed".

(** [r'] is [r] but for its status and its receipt. *)
Definition same_data (r r' : Request.t) : Prop :=
  Request.request_id r' = Request.request_id r
  /\ Request.action r' = Request.action r
  /\ Request.role r' = Request.role r
  /\ Request.priority r' = Request.priority r
  /\ Request.timeout_seconds r' = Request.timeout_seconds r
  /\ Request.fallback r' = Request.fallback r
  /\ Request.agent_id r' = Request.agent_id r
  /\ Request.project_id r' = Request.project_id r
  /\ Request.metadata r' = Request.metadata r
  /\ Request.payload r' = Request.payload r
  /\ Request.created_at r' = Request.created_at r
  /\ Request.expires_at r' = Request.expires_at r.

(** [st'] is [st] but for the request under [id], of which only the status
    and the receipt may differ. *)
Definition touches_only (id : string) (st st' : state) : Prop :=
  wsSubscriptions st' = wsSubscriptions st
  /\ timers st' = timers st
  /\ (forall id', id' <> id ->
        assoc id' (requests st') = assoc id' (requests st))
  /\ match assoc id (requests st), assoc id (requests st') with
     | Some r, Some r' => same_data r r'
     | None, None => True
     | _, _ => False
     end.



(** The test of the agent's listing on a stored request. *)
Definition list_keeps (q_agent_id q_project_id q_status : value)
  (r : Request.t) : bool :=
  (if truthy q_agent_id then strict_eq (Request.agent_id r) q_agent_id else true)
  && (if truthy q_project_id
      then strict_eq (Request.project_id r) q_project_id else true)
  && (if truthy q_status
      then strict_eq (VStr (Request.status r)) q_status else true).

(** Every character of [s] is a lower-case hexadecimal digit. *)
Fixpoint all_hex (s : string) : bool :=
  match s with
  | EmptyString => true
  | String c rest =>
      let n := nat_of_ascii c in
      ((Nat.leb 48 n && Nat.leb n 57) || (Nat.leb 97 n && Nat.leb n 102))
      && all_hex rest
  end.

(** [s] has no dash. *)
Fixpoint no_dash (s : string) : bool :=
  match s with
  | EmptyString => true
  | String c rest => negb (c =? "-")%char && no_dash rest
  end.

(* ------------------------------------------------------------------------- *)
(** ** Scenarios *)
(* ------------------------------------------------------------------------- *)

(** Concrete runs of the server under its default configuration, used to
    exercise the statements below. *)
Module Scenario.

Definition uuid : string := "123e4567-e89b-42d3-a456-426614174000".
Definition id : string := "hxp_123e4567e89b".
Definition uuid2 : string := "9b2f0c1a-7d44-4e0b-8f6e-0a1b2c3d4e5f".
Definition t0 : Z := 1700000000000.

Definition decide_payload (default_option : value) : value :=
  VObj ([ ("question", VStr "Approve $99/mo?");
          ("options", VArr [VStr "Approve"; VStr "Deny"]) ]
        ++ match default_option with
           | VUndefined => []
           | d => [("default_option", d)]
           end)%list.

Definition decide_body (timeout_seconds : option Z) (fallback default_option : value)
  : Body.t :=
  Body.mk (VStr "DECIDE") VUndefined VUndefined timeout_seconds fallback
    VUndefined VUndefined VUndefined (decide_payload default_option).

(** A DECIDE request, one second of timeout, [fallback] as given. *)
Definition timed (fallback default_option : value) : list op :=
  [Create (decide_body (Some 1) fallback default_option) uuid t0 t0].

(** ... and then its timer fires, the two clock readings being [now1] and
    [now2]. *)
Definition timed_out (fallback default_option : value) (now1 now2 : Z) : list op :=
  (timed fallback default_option ++ [Fire 0 now1 now2])%list.

(** A DECIDE request without timeout, resolved by a human with [Approve]. *)
Definition resolved : list op :=
  [ Create (decide_body None VUndefined VUndefined) uuid t0 t0;
    Resolve id "dev-human-token" (VStr "Approve") VUndefined (t0 + 4200) ].

(** An APPROVE request whose rejection requires a reason. *)
Definition approve_body : Body.t :=
  Body.mk (VStr "APPROVE") VUndefined VUndefined None VUndefined
    VUndefined VUndefined VUndefined
    (VObj [ ("item", VStr "Expense #1");
            ("details", VObj [("amount", VNum 50)]);
            ("reject_requires_reason", VBool true) ]).

Definition approve_pending : list op := [Create approve_body uuid t0 t0].

(** A DECIDE request whose options and default are the empty string and
    [No]: [validatePayload] only counts the options. *)
Definition empty_default_payload : value :=
  VObj [ ("question", VStr "Keep the name empty?");
         ("options", VArr [VStr ""; VStr "No"]);
         ("default_option", VStr "") ].

Definition empty_default_created : list op :=
  [ Create (Body.mk (VStr "DECIDE") VUndefined VUndefined (Some 1)
              (VStr "default") VUndefined VUndefined VUndefined
              empty_default_payload) uuid t0 t0 ].

Definition empty_default : list op :=
  (empty_default_created ++ [Fire 0 (t0 + 1000) (t0 + 1000)])%list.

(** A subscriber on the socket of the first request, then the request with
    [fallback] and a timeout, then the timer. *)
Definition watched (timeout_seconds : Z) (fallback : value) : list op :=
  [ WsConnection (mkWs 7 1) (Some id);
    Create (decide_body (Some timeout_seconds) fallback VUndefined) uuid t0 t0 ].

Definition watched_timeout (timeout_seconds : Z) (fallback : value) : list op :=
  (watched timeout_seconds fallback
   ++ [Fire 0 (t0 + timeout_seconds * 1000) (t0 + timeout_seconds * 1000)])%list.

(** Two requests, the first resolved: one [completed], one [pending]. *)
Definition two_requests : list op :=
  (resolved ++
   [Create (Body.mk (VStr "PROVIDE") VUndefined (VStr "high") None VUndefined
              VUndefined VUndefined VUndefined
              (VObj [("prompt", VStr "Shipping address?");
                     ("input_type", VStr "text")]))
           uuid2 (t0 + 5000) (t0 + 5000)])%list.

Definition state_after (ops : list op) : state := run dev_secret dev_port initial ops.

(** The requests these runs store under [id] while they are pending. *)
Definition pending_decide (fallback default_option : value) : Request.t :=
  Request.mk id (VStr "DECIDE") (VStr "owner") (VStr "normal") 1 fallback
    (VStr "unknown") VNull (VObj []) (decide_payload default_option)
    "pending" t0 (Some (t0 + 1000)) None.

Definition pending_approve : Request.t :=
  Request.mk id (VStr "APPROVE") (VStr "owner") (VStr "normal") 0 (VStr "pause")
    (VStr "unknown") VNull (VObj []) (Body.payload approve_body)
    "pending" t0 None None.

(** The request [resolved] leaves under [id], and the one a timeout with
    another fallback than [default] leaves. *)
Definition resolved_request : Request.t :=
  Request.mk id (VStr "DECIDE") (VStr "owner") (VStr "normal") 0 (VStr "pause")
    (VStr "unknown") VNull (VObj []) (decide_payload VUndefined)
    "completed" t0 None
    (Some (Receipt.mk id "completed" (VStr "Approve") VNull "dev-human-token"
             (t0 + 4200) 4
             (generateEvidenceHash dev_secret id (VStr "Approve")
                (toISOString (t0 + 4200))))).

Definition expired_request (fallback : value) : Request.t :=
  Request.set_status "expired" (pending_decide fallback VUndefined).

(** The receipt the timeout callback writes for the default [Deny] when
    the clock reads [now1] and then [now2]. *)
Definition timeout_receipt (now1 now2 : Z) : Receipt.t :=
  Receipt.mk id "completed" (VStr "Deny")
    (VStr "Timeout — default option applied") "system" now1 1
    (generateEvidenceHash dev_secret id (VStr "Deny") (toISOString now2)).

(** What a field of the request stored under [id] holds. *)
Definition stored {A : Type} (f : Request.t -> A) (st : state) : option A :=
  option_map f (assoc id (requests st)).

End Scenario.

(** A desk with three APPROVE requests of one agent, created one second
    apart with the priorities [critical], [high] and [low]. *)
Module Desk.

Definition uuid3 : string := "0f1e2d3c-4b5a-4978-8695-a4b3c2d1e0f9".

Definition with_priority (p : string) : Body.t :=
  Body.mk (VStr "APPROVE") VUndefined (VStr p) None VUndefined
    (VStr "agent-7") VUndefined VUndefined (VObj [("item", VStr "Deploy")]).

Definition stored (id p : string) (created_at : Z) : Request.t :=
  Request.mk id (VStr "APPROVE") (VStr "owner") (VStr p) 0 (VStr "pause")
    (VStr "agent-7") VNull (VObj []) (VObj [("item", VStr "Deploy")])
    "pending" created_at None None.


Definition ops : list op :=
  [ Create (with_priority "critical") Scenario.uuid Scenario.t0 Scenario.t0;
    Create (with_priority "high") Scenario.uuid2
      (Scenario.t0 + 1000) (Scenario.t0 + 1000);
    Create (with_priority "low") uuid3
      (Scenario.t0 + 2000) (Scenario.t0 + 2000) ].

Definition state : state := run dev_secret dev_port initial ops.

End Desk.

(* ------------------------------------------------------------------------- *)
(** ** Basic facts *)
(* ------------------------------------------------------------------------- *)

Ltac break_if :=
  match goal with
  | |- context [if ?c then _ else _] => destruct c eqn:?
  | H : context [if ?c then _ else _] |- _ => destruct c eqn:?
  end.

Ltac break_match :=
  match goal with
  | |- context [match ?c with _ => _ end] => destruct c eqn:?
  | H : context [match ?c with _ => _ end] |- _ => destruct c eqn:?
  end.

Lemma strict_eq_eq (a b : value) : strict_eq a b = true -> a = b.
Proof.
  destruct a, b; simpl; try discriminate; intros H; try reflexivity.
  - apply Bool.eqb_prop in H. now subst.
  - apply Z.eqb_eq in H. now subst.
  - apply String.eqb_eq in H. now subst.
Qed.

Lemma strict_eq_str (s t : string) : strict_eq (VStr s) (VStr t) = (s =? t)%string.
Proof. reflexivity. Qed.

Lemma includes_In (l : list value) (x : value) : includes l x = true -> In x l.
Proof.
  unfold includes. rewrite existsb_exists. intros [e [Hin He]].
  apply strict_eq_eq in He. now subst.
Qed.


Section MapFacts.
Context {A : Type}.
Implicit Types (m : list (string * A)) (k : string) (a : A).

Lemma assoc_In k a m : assoc k m = Some a -> In (k, a) m.
Proof.
  induction m as [|[k' a'] m IH]; simpl; [discriminate|].
  destruct (k' =? k)%string eqn:E.
  - apply String.eqb_eq in E. intros [= ->]. subst. now left.
  - intros H. right. now apply IH.
Qed.

Lemma assoc_map_set_same k a m : assoc k (map_set k a m) = Some a.
Proof.
  induction m as [|[k' a'] m IH]; simpl.
  - now rewrite String.eqb_refl.
  - destruct (k' =? k)%string eqn:E; simpl.
    + now rewrite String.eqb_refl.
    + now rewrite E.
Qed.

Lemma In_map_set k a k' a' m :
  In (k', a') (map_set k a m) -> (k', a') = (k, a) \/ In (k', a') m.
Proof.
  induction m as [|[k0 a0] m IH]; simpl.
  - intros [H|[]]. now left.
  - destruct (k0 =? k)%string; simpl.
    + intros [H|H]; [now left | right; now right].
    + intros [H|H]; [right; now left|].
      destruct (IH H) as [?|?]; [now left | right; now right].
Qed.
End MapFacts.

(** The socket handlers leave the [requests] Map alone. *)
Lemma ws_connection_requests st sock requestId :
  requests (fst (ws_connection st sock requestId)) = requests st.
Proof.
  unfold ws_connection. repeat (break_if || break_match); reflexivity.
Qed.

Lemma ws_close_requests st handle requestId :
  requests (ws_close st handle requestId) = requests st.
Proof.
  unfold ws_close. repeat (break_if || break_match); reflexivity.
Qed.

(** *** The sort rearranges *)

Lemma insert_perm {A : Type} (cmp : A -> A -> number) (x : A) (l : list A) :
  Permutation (insert cmp x l) (x :: l).
Proof.
  induction l as [|y l IH]; simpl; [reflexivity|].
  destruct (before cmp x y); [reflexivity|].
  rewrite IH. apply perm_swap.
Qed.

Lemma sort_perm {A : Type} (cmp : A -> A -> number) (l : list A) :
  Permutation (sort cmp l) l.
Proof.
  induction l as [|x l IH]; simpl; [reflexivity|].
  rewrite insert_perm. now constructor.
Qed.

Lemma filter_filter {A : Type} (f g : A -> bool) (l : list A) :
  filter f (filter g l) = filter (fun x => g x && f x) l.
Proof.
  induction l as [|x l IH]; simpl; [reflexivity|].
  destruct (g x); simpl; [destruct (f x)|]; now rewrite IH.
Qed.

(* ------------------------------------------------------------------------- *)
(** ** Invariants of the store *)
(* ------------------------------------------------------------------------- *)

Lemma create_store_step (PORT : string) (st : state) (b : Body.t)
  (uuid : string) (now date_now : Z) :
  store_step (requests st) (requests (fst (create PORT st b uuid now date_now))).
Proof.
  unfold create.
  destruct (negb (includes VALID_ACTIONS (Body.action b))); [now left|].
  destruct (negb (includes VALID_ROLES (default_to (VStr "owner") (Body.role b))));
    [now left|].
  destruct (validatePayload (Body.action b)
              (default_to (VObj []) (Body.payload b))) as [[e|]|] eqn:Hv;
    [now left| |now left].
  break_if; [now left|].
  right. simpl. eexists _, _. split; [reflexivity|].
  now apply writes_created.
Qed.

Lemma cancel_store_step (st : state) (id : string) :
  store_step (requests st) (requests (fst (fst (cancel st id)))).
Proof.
  unfold cancel.
  destruct (assoc id (requests st)) as [request|] eqn:Hget; [|now left].
  destruct (negb (Request.status request =? "pending")%string
            && negb (Request.status request =? "assigned")%string) eqn:Hg;
    [now left|].
  right. simpl. eexists _, _. split; [reflexivity|].
  apply (writes_closed (requests st) _ id request "cancelled");
    [now apply assoc_In| |now left|reflexivity].
  apply andb_false_iff in Hg as [Hg|Hg]; apply negb_false_iff in Hg;
    apply String.eqb_eq in Hg; auto.
Qed.

Lemma resolve_store_step (SERVER_SECRET : string) (st : state)
  (id humanId : string) (result reason : value) (now : Z) :
  store_step (requests st)
    (requests (fst (fst (resolve SERVER_SECRET st id humanId result reason now)))).
Proof.
  unfold resolve.
  destruct (assoc id (requests st)) as [request|] eqn:Hget; [|now left].
  repeat (break_if || break_match); try (now left).
  right. simpl. eexists _, _. split; [reflexivity|].
  eapply (writes_completed (requests st) _ id request); [now apply assoc_In|reflexivity].
Qed.

Lemma timeout_callback_store_step (SERVER_SECRET : string) (st : state)
  (tm : timer) (now1 now2 : Z) :
  store_step (requests st)
    (requests (fst (timeout_callback SERVER_SECRET st tm now1 now2))).
Proof.
  unfold timeout_callback.
  destruct (assoc (t_requestId tm) (requests st)) as [req|] eqn:Hget; [|now left].
  destruct (Request.status req =? "pending")%string eqn:Hp; [|now left].
  apply String.eqb_eq in Hp. apply assoc_In in Hget.
  right. simpl. eexists _, _. split; [reflexivity|].
  break_if.
  - eapply (writes_completed (requests st) _ (t_requestId tm) req); [eassumption|reflexivity].
  - apply (writes_closed (requests st) _ (t_requestId tm) req "expired"); auto.
Qed.

Lemma step_store_step (SERVER_SECRET PORT : string) (st : state) (o : op) :
  store_step (requests st) (requests (fst (fst (step SERVER_SECRET PORT st o)))).
Proof.
  destruct o; simpl.
  - pose proof (create_store_step PORT st b uuid now date_now) as H.
    destruct (create PORT st b uuid now date_now). exact H.
  - now left.
  - pose proof (cancel_store_step st id) as H.
    destruct (cancel st id) as [[? ?] ?]. exact H.
  - now left.
  - pose proof (resolve_store_step SERVER_SECRET st id humanId result reason now)
      as H.
    destruct (resolve SERVER_SECRET st id humanId result reason now) as [[? ?] ?].
    exact H.
  - unfold fire. destruct (nth_error (timers st) n) as [tm|]; [|now left].
    match goal with
    | |- context [timeout_callback _ ?s _ _ _] =>
        pose proof (timeout_callback_store_step SERVER_SECRET s tm now1 now2) as H;
        destruct (timeout_callback SERVER_SECRET s tm now1 now2)
    end.
    exact H.
  - pose proof (ws_connection_requests st sock requestId) as H.
    destruct (ws_connection st sock requestId) as [st' fs]. left. exact H.
  - left. apply ws_close_requests.
  - now left.
Qed.

(** A property of single requests that holds of whatever a step writes
    holds of every request of every state of every run. *)
Section Invariants.
Variable SERVER_SECRET : string.
Variable PORT : string.
Variable P : Request.t -> Prop.

Hypothesis P_writes :
  forall st r', all_requests P st -> writes (requests st) r' -> P r'.

Lemma store_step_keeps st st' :
  store_step (requests st) (requests st') ->
  all_requests P st -> all_requests P st'.
Proof.
  intros [Heq|[id [r' [Heq Hw]]]] Hst k r Hin; rewrite Heq in Hin.
  - eapply Hst; eassumption.
  - apply In_map_set in Hin as [E|Hin]; [|eapply Hst; eassumption].
    inversion E; subst. now apply (P_writes st).
Qed.

Lemma run_keeps ops : forall st,
  all_requests P st -> all_requests P (run SERVER_SECRET PORT st ops).
Proof.
  induction ops as [|o ops IH]; intros st Hst; simpl; [assumption|].
  apply IH. eapply store_step_keeps; [apply step_store_step|assumption].
Qed.

Lemma reachable_all_requests ops :
  all_requests P (run SERVER_SECRET PORT initial ops).
Proof. apply run_keeps. intros id r []. Qed.
End Invariants.

Lemma request_ok_no_receipt (r : Request.t) (s : string) :
  In s written_statuses -> s <> "completed" ->
  Request.status r = s -> Request.receipt r = None -> request_ok r.
Proof.
  intros Hin Hne Hs Hr. split.
  - now rewrite Hs.
  - unfold receipt_iff_completed. rewrite Hs, Hr. split; intros H; congruence.
Qed.

Lemma request_ok_no_receipt_inv (r : Request.t) :
  request_ok r -> Request.status r <> "completed" -> Request.receipt r = None.
Proof.
  intros [_ [H _]] Hne. destruct (Request.receipt r) eqn:E; [|reflexivity].
  exfalso. apply Hne, H. discriminate.
Qed.

Lemma writes_request_ok (st : state) (r' : Request.t) :
  all_requests request_ok st -> writes (requests st) r' -> request_ok r'.
Proof.
  intros Hst [Hs Hr _ | id r s Hin Hopen Hs -> | id r rc Hin ->].
  - apply (request_ok_no_receipt r' "pending"); simpl; auto. discriminate.
  - assert (Hnone : Request.receipt r = None).
    { apply request_ok_no_receipt_inv; [eapply Hst; eassumption|].
      destruct Hopen as [-> | ->]; discriminate. }
    apply (request_ok_no_receipt _ s); try reflexivity; try assumption.
    + destruct Hs as [-> | ->]; simpl; auto.
    + destruct Hs as [-> | ->]; discriminate.
  - split; simpl; [auto|].
    unfold receipt_iff_completed. simpl. split; intros; congruence.
Qed.

Lemma reachable_request_ok (SERVER_SECRET PORT : string) (ops : list op) :
  all_requests request_ok (run SERVER_SECRET PORT initial ops).
Proof. apply reachable_all_requests. exact writes_request_ok. Qed.

Lemma writes_payload_ok (st : state) (r' : Request.t) :
  all_requests payload_ok st -> writes (requests st) r' -> payload_ok r'.
Proof.
  intros Hst [_ _ Hp | id r s Hin _ _ -> | id r rc Hin ->].
  - assumption.
  - apply (Hst id r Hin).
  - apply (Hst id r Hin).
Qed.

(** Every stored request has a payload that [validatePayload] accepted. *)
Lemma reachable_payload_ok (SERVER_SECRET PORT : string) (ops : list op) :
  all_requests payload_ok (run SERVER_SECRET PORT initial ops).
Proof. apply reachable_all_requests. exact writes_payload_ok. Qed.

(** In particular a stored DECIDE request has an array of options. *)
Lemma stored_decide_has_options
  (SERVER_SECRET PORT : string) (ops : list op) (id : string) (r : Request.t) :
  assoc id (requests (run SERVER_SECRET PORT initial ops)) = Some r ->
  Request.action r = VStr "DECIDE" ->
  exists options, prop (Request.payload r) "options" = VArr options.
Proof.
  intros Hget Hact.
  pose proof (reachable_payload_ok SERVER_SECRET PORT ops id r
                (assoc_In _ _ _ Hget)) as Hp.
  unfold payload_ok, validatePayload in Hp. rewrite Hact in Hp. simpl in Hp.
  repeat break_if; try discriminate.
  destruct (prop (Request.payload r) "options"); try discriminate.
  eexists. reflexivity.
Qed.

(** Every stored request has one of the four statuses the server writes:
    no request is ever [assigned] or [failed]. *)
Lemma reachable_statuses (SERVER_SECRET PORT : string) (ops : list op) :
  statuses_ok (run SERVER_SECRET PORT initial ops).
Proof.
  intros id r Hin. eapply reachable_request_ok; eassumption.
Qed.

(* ------------------------------------------------------------------------- *)
(** ** Receipt and status *)
(* ------------------------------------------------------------------------- *)

(** C1. Whatever requests, timer firings and socket events the server has
    gone through, every request in its store has a receipt if and only if
    its status is [completed].  Each handler and each timer callback is one
    step of [run], so a step that writes [completed] writes the receipt in
    that same step, and the steps that write another status leave the
    receipt [null]. *)
Theorem receipt_iff_status_completed
  (SERVER_SECRET PORT : string) (ops : list op) (id : string) (r : Request.t) :
  In (id, r) (requests (run SERVER_SECRET PORT initial ops)) ->
  (Request.receipt r <> None <-> Request.status r = "completed").
Proof.
  intros Hin.
  eapply (reachable_request_ok SERVER_SECRET PORT ops); eassumption.
Qed.

(* ------------------------------------------------------------------------- *)
(** ** The status guards *)
(* ------------------------------------------------------------------------- *)

Section Guards.
Variable SERVER_SECRET : string.
Variables (st : state) (id : string) (r : Request.t).
Hypothesis Hstored : assoc id (requests st) = Some r.

Lemma resolve_already_resolved humanId result reason now :
  Request.status r = "completed" \/ Request.status r = "cancelled" ->
  resolve SERVER_SECRET st id humanId result reason now
  = (st, error_response 409 "conflict" "Request already resolved", []).
Proof.
  intros H. unfold resolve. rewrite Hstored.
  destruct H as [-> | ->]; reflexivity.
Qed.

Lemma resolve_expired humanId result reason now :
  Request.status r = "expired" ->
  resolve SERVER_SECRET st id humanId result reason now
  = (st, error_response 409 "expired" "Request has expired", []).
Proof. intros H. unfold resolve. rewrite Hstored, H. reflexivity. Qed.

Lemma cancel_not_open :
  Request.status r <> "pending" -> Request.status r <> "assigned" ->
  cancel st id = (st, error_response 409 "conflict" "Request already resolved", []).
Proof.
  intros Hp Ha. unfold cancel. rewrite Hstored.
  apply String.eqb_neq in Hp, Ha. now rewrite Hp, Ha.
Qed.

Lemma timeout_callback_not_pending tm now1 now2 :
  t_requestId tm = id -> Request.status r <> "pending" ->
  timeout_callback SERVER_SECRET st tm now1 now2 = (st, []).
Proof.
  intros Hid Hp. unfold timeout_callback. rewrite Hid, Hstored.
  apply String.eqb_neq in Hp. now rewrite Hp.
Qed.
End Guards.

(** C4. In any state the server can reach, a request whose status is
    [completed], [cancelled], [failed] or [expired] is out of reach of the
    three triggers: resolving it and cancelling it are answered 409 Conflict
    and firing a timer armed for it does nothing; each of the three leaves
    the whole state, hence the stored request and its receipt, as it was,
    and sends no frame. *)
Theorem terminal_request_is_immutable
  (SERVER_SECRET PORT : string) (ops : list op) (id : string) (r : Request.t) :
  assoc id (requests (run SERVER_SECRET PORT initial ops)) = Some r ->
  In (Request.status r) terminal_statuses ->
  (forall humanId result reason now,
      exists resp,
        resolve SERVER_SECRET (run SERVER_SECRET PORT initial ops)
          id humanId result reason now
        = (run SERVER_SECRET PORT initial ops, resp, [])
        /\ http_status resp = 409)
  /\ (exists resp,
        cancel (run SERVER_SECRET PORT initial ops) id
        = (run SERVER_SECRET PORT initial ops, resp, [])
        /\ http_status resp = 409)
  /\ (forall tm now1 now2,
        t_requestId tm = id ->
        timeout_callback SERVER_SECRET (run SERVER_SECRET PORT initial ops)
          tm now1 now2
        = (run SERVER_SECRET PORT initial ops, [])).
Proof.
  intros Hget Hterm.
  pose proof (reachable_statuses SERVER_SECRET PORT ops id r (assoc_In _ _ _ Hget))
    as Hw.
  assert (Hcases : Request.status r = "completed" \/ Request.status r = "cancelled"
                   \/ Request.status r = "expired").
  { simpl in Hterm, Hw.
    destruct Hterm as [H|[H|[H|[H|[]]]]]; symmetry in H; auto.
    rewrite H in Hw. destruct Hw as [E|[E|[E|[E|[]]]]]; discriminate. }
  assert (Hp : Request.status r <> "pending")
    by (destruct Hcases as [H|[H|H]]; rewrite H; discriminate).
  assert (Ha : Request.status r <> "assigned")
    by (destruct Hcases as [H|[H|H]]; rewrite H; discriminate).
  split; [|split].
  - intros humanId result reason now.
    destruct Hcases as [H|[H|H]].
    + eexists. split; [apply (resolve_already_resolved _ _ _ _ Hget); auto|reflexivity].
    + eexists. split; [apply (resolve_already_resolved _ _ _ _ Hget); auto|reflexivity].
    + eexists. split; [apply (resolve_expired _ _ _ _ Hget); auto|reflexivity].
  - eexists. split; [apply (cancel_not_open _ _ _ Hget); assumption|reflexivity].
  - intros tm now1 now2 Hid.
    apply (timeout_callback_not_pending _ _ _ _ Hget); assumption.
Qed.

(** C8 as the code has it. On a request whose status is [expired], resolve
    is answered 409 with the error code [expired], which is not the
    [conflict] code of the other terminal statuses, while cancel is answered
    with that generic [conflict] itself; neither changes the state nor
    sends a frame. *)
Theorem expired_resolve_distinct_cancel_generic
  (SERVER_SECRET : string) (st : state) (id : string) (r : Request.t)
  (humanId : string) (result reason : value) (now : Z) :
  assoc id (requests st) = Some r ->
  Request.status r = "expired" ->
  resolve SERVER_SECRET st id humanId result reason now
  = (st, error_response 409 "expired" "Request has expired", [])
  /\ cancel st id
     = (st, error_response 409 "conflict" "Request already resolved", [])
  /\ error_response 409 "expired" "Request has expired"
     <> error_response 409 "conflict" "Request already resolved".
Proof.
  intros Hget Hs. split; [|split].
  - now apply (resolve_expired _ _ _ _ Hget).
  - apply (cancel_not_open _ _ _ Hget); rewrite Hs; discriminate.
  - discriminate.
Qed.

(* ------------------------------------------------------------------------- *)
(** ** Resolution *)
(* ------------------------------------------------------------------------- *)

Lemma resolve_completes
  (SERVER_SECRET : string) (st : state) (id : string) (r : Request.t)
  (humanId : string) (result reason : value) (now : Z) :
  assoc id (requests st) = Some r ->
  Request.status r = "pending" \/ Request.status r = "assigned" ->
  nullish result = false ->
  validateResult r result = Ret None ->
  strict_eq (Request.action r) (VStr "APPROVE")
  && strict_eq result (VStr "rejected")
  && truthy (prop (Request.payload r) "reject_requires_reason")
  && negb (truthy reason) = false ->
  exists rc,
    fst (resolve SERVER_SECRET st id humanId result reason now)
    = (with_requests st
         (map_set id (Request.set_receipt (Some rc)
                        (Request.set_status "completed" r)) (requests st)),
       mkResponse 200 [("HXP-Status", "completed"); ("HXP-Request-Id", id)]
         (VObj [("receipt", Receipt.to_value rc)]))
    /\ Receipt.request_id rc = id
    /\ Receipt.result rc = result
    /\ Receipt.reason rc = or_else reason VNull
    /\ Receipt.completed_by rc = humanId
    /\ Receipt.completed_at rc = now
    /\ Receipt.evidence_hash rc
       = generateEvidenceHash SERVER_SECRET id result (toISOString now).
Proof.
  intros Hget Hs Hnull Hval Hreason.
  unfold resolve. rewrite Hget.
  assert (E1 : ((Request.status r =? "completed")%string
                || (Request.status r =? "cancelled")%string) = false)
    by (destruct Hs as [-> | ->]; reflexivity).
  assert (E2 : (Request.status r =? "expired")%string = false)
    by (destruct Hs as [-> | ->]; reflexivity).
  assert (E3 : strict_eq result VUndefined || strict_eq result VNull = false)
    by (destruct result; simpl in *; congruence).
  rewrite E1, E2, E3, Hval, Hreason.
  eexists. simpl. repeat split.
Qed.

Lemma resolve_completes_request
  (SERVER_SECRET : string) (st : state) (id : string) (r : Request.t)
  (humanId : string) (result reason : value) (now : Z) :
  assoc id (requests st) = Some r ->
  Request.status r = "pending" \/ Request.status r = "assigned" ->
  nullish result = false ->
  validateResult r result = Ret None ->
  strict_eq (Request.action r) (VStr "APPROVE")
  && strict_eq result (VStr "rejected")
  && truthy (prop (Request.payload r) "reject_requires_reason")
  && negb (truthy reason) = false ->
  completes (resolve SERVER_SECRET st id humanId result reason now) id result.
Proof.
  intros Hget Hs Hnull Hval Hreason.
  destruct (resolve_completes SERVER_SECRET st id r humanId result reason now
              Hget Hs Hnull Hval Hreason) as [rc [Hout [_ [Hres _]]]].
  unfold completes. rewrite Hout. simpl.
  exists (Request.set_receipt (Some rc) (Request.set_status "completed" r)), rc.
  repeat split; try assumption.
  apply assoc_map_set_same.
Qed.


(** C7. For a stored APPROVE request that is pending and whose payload has
    [reject_requires_reason] true: resolving with [rejected] and no reason
    (absent, [null], empty, or any other falsy value) is answered 422
    [reason_required] and leaves the state, so the status too, as it was;
    resolving with [rejected] and a non-empty string as reason completes the
    request. *)
Theorem approve_rejection_reason
  (SERVER_SECRET : string) (st : state) (id : string) (r : Request.t)
  (humanId : string) (reason : value) (now : Z) :
  assoc id (requests st) = Some r ->
  Request.action r = VStr "APPROVE" ->
  Request.status r = "pending" ->
  prop (Request.payload r) "reject_requires_reason" = VBool true ->
  (truthy reason = false ->
   resolve SERVER_SECRET st id humanId (VStr "rejected") reason now
   = (st,
      error_response 422 "reason_required"
        "A reason is required when rejecting this request",
      []))
  /\ (forall s, reason = VStr s -> s <> "" ->
      completes (resolve SERVER_SECRET st id humanId (VStr "rejected") reason now)
        id (VStr "rejected")
      /\ option_map Receipt.reason
           (receipt_of
              (fst (fst (resolve SERVER_SECRET st id humanId (VStr "rejected")
                           reason now))) id)
         = Some (VStr s)).
Proof.
  intros Hget Hact Hs Hflag. split.
  - intros Hno. unfold resolve. rewrite Hget, Hs. simpl.
    unfold validateResult. rewrite Hact, Hflag, Hno. reflexivity.
  - intros s -> Hne.
    assert (Ht : truthy (VStr s) = true).
    { simpl. apply negb_true_iff. now apply String.eqb_neq. }
    assert (Hval : validateResult r (VStr "rejected") = Ret None)
      by (unfold validateResult; rewrite Hact; reflexivity).
    assert (Hreason :
              strict_eq (Request.action r) (VStr "APPROVE")
              && strict_eq (VStr "rejected") (VStr "rejected")
              && truthy (prop (Request.payload r) "reject_requires_reason")
              && negb (truthy (VStr s)) = false)
      by (rewrite Ht; apply andb_false_r).
    split.
    + apply (resolve_completes_request SERVER_SECRET st id r); auto.
    + destruct (resolve_completes SERVER_SECRET st id r humanId (VStr "rejected")
                  (VStr s) now Hget (or_introl Hs) eq_refl Hval Hreason)
        as [rc [Hout [_ [_ [Hr _]]]]].
      rewrite Hout. unfold receipt_of. simpl. rewrite assoc_map_set_same. simpl.
      rewrite Hr. unfold or_else. now rewrite Ht.
Qed.

(* ------------------------------------------------------------------------- *)
(** ** The timeout callback *)
(* ------------------------------------------------------------------------- *)

Lemma strict_eq_neq (a b : value) : a <> b -> strict_eq a b = false.
Proof.
  intros Hne. destruct (strict_eq a b) eqn:E; [|reflexivity].
  exfalso. apply Hne. now apply strict_eq_eq.
Qed.

(** With any fallback but [default] the callback leaves [expired] behind,
    [fail] and [pause] included, and publishes the [expired] event. *)
Lemma timeout_callback_other_fallback
  (SERVER_SECRET : string) (st : state) (tm : timer) (r : Request.t)
  (now1 now2 : Z) :
  assoc (t_requestId tm) (requests st) = Some r ->
  Request.status r = "pending" ->
  t_fallback tm <> VStr "default" ->
  timeout_callback SERVER_SECRET st tm now1 now2
  = (with_requests st
       (map_set (t_requestId tm) (Request.set_status "expired" r) (requests st)),
     notifySubscribers st (t_requestId tm)
       (VObj [("event", VStr "expired"); ("receipt", Request.receipt_value r)])).
Proof.
  intros Hget Hs Hfb. unfold timeout_callback.
  rewrite Hget, Hs. simpl. now rewrite (strict_eq_neq _ _ Hfb).
Qed.

(** One run of the callback with the fields its closure captured, on a
    request that is still pending and whose fallback is [default]: the test
    is on the action and on the truthiness of [payload.default_option]. *)
Lemma timeout_callback_default
  (SERVER_SECRET : string) (st : state) (tm : timer) (r : Request.t)
  (now1 now2 : Z) :
  assoc (t_requestId tm) (requests st) = Some r ->
  armed_for tm r ->
  Request.status r = "pending" ->
  Request.fallback r = VStr "default" ->
  (Request.action r = VStr "DECIDE" ->
   truthy (prop (Request.payload r) "default_option") = true ->
   exists rc,
     status_of (fst (timeout_callback SERVER_SECRET st tm now1 now2))
       (t_requestId tm) = Some "completed"
     /\ receipt_of (fst (timeout_callback SERVER_SECRET st tm now1 now2))
          (t_requestId tm) = Some rc
     /\ Receipt.result rc = prop (Request.payload r) "default_option"
     /\ Receipt.completed_by rc = "system"
     /\ Receipt.reason rc = VStr "Timeout — default option applied")
  /\ (Request.action r <> VStr "DECIDE"
      \/ truthy (prop (Request.payload r) "default_option") = false ->
      status_of (fst (timeout_callback SERVER_SECRET st tm now1 now2))
        (t_requestId tm) = Some "expired"
      /\ receipt_of (fst (timeout_callback SERVER_SECRET st tm now1 now2))
           (t_requestId tm) = Request.receipt r).
Proof.
  intros Hget [_ [Hfb [Hact [Hpay _]]]] Hs Hdef.
  unfold timeout_callback. rewrite Hget, Hs, Hfb, Hact, Hpay, Hdef. simpl.
  split.
  - intros Ha Ht. rewrite Ha, Ht. simpl.
    eexists. unfold status_of, receipt_of. simpl.
    rewrite assoc_map_set_same. simpl. repeat split.
  - intros Hno.
    assert (E : strict_eq (Request.action r) (VStr "DECIDE")
                && truthy (prop (Request.payload r) "default_option") = false).
    { destruct Hno as [Hno|Hno].
      - now rewrite (strict_eq_neq _ _ Hno).
      - rewrite Hno. apply andb_false_r. }
    rewrite E. unfold status_of, receipt_of. simpl.
    rewrite assoc_map_set_same. simpl. split; reflexivity.
Qed.

(** The create handler arms, for the request it stores, a timer that
    captures that request's own fields. *)
Lemma create_arms_for
  (PORT : string) (st : state) (b : Body.t) (uuid : string) (now date_now : Z)
  (tm : timer) :
  In tm (timers (fst (create PORT st b uuid now date_now))) ->
  In tm (timers st)
  \/ exists r,
       assoc (t_requestId tm)
         (requests (fst (create PORT st b uuid now date_now))) = Some r
       /\ armed_for tm r /\ Request.status r = "pending".
Proof.
  unfold create.
  repeat (break_if || break_match); simpl; auto.
  all: intros Hin; apply in_app_or in Hin as [Hin|[<-|[]]]; [now left|right].
  all: simpl; eexists; rewrite assoc_map_set_same; split; [reflexivity|].
  all: repeat split.
Qed.

(* ------------------------------------------------------------------------- *)
(** ** The evidence hash *)
(* ------------------------------------------------------------------------- *)

(** The resolve handler hashes with the very [completedAt] it stores. *)
Lemma resolve_hash_of_receipt
  (SERVER_SECRET : string) (st : state) (id humanId : string)
  (result reason : value) (now : Z) (rc : Receipt.t) :
  receipt_of st id <> Some rc ->
  receipt_of (fst (fst (resolve SERVER_SECRET st id humanId result reason now))) id
  = Some rc ->
  Receipt.evidence_hash rc = hash_of_receipt SERVER_SECRET rc.
Proof.
  intros Hold. unfold resolve.
  repeat (break_if || break_match); simpl; try (intros H; contradiction).
  unfold receipt_of. simpl. rewrite assoc_map_set_same. simpl.
  intros [= <-]. reflexivity.
Qed.

(** The timeout callback stores the first clock reading and hashes the
    second. *)
Lemma timeout_hash_of_second_reading
  (SERVER_SECRET : string) (st : state) (tm : timer) (now1 now2 : Z)
  (rc : Receipt.t) :
  receipt_of st (t_requestId tm) = None ->
  receipt_of (fst (timeout_callback SERVER_SECRET st tm now1 now2)) (t_requestId tm)
  = Some rc ->
  Receipt.completed_at rc = now1
  /\ Receipt.evidence_hash rc
     = generateEvidenceHash SERVER_SECRET (Receipt.request_id rc)
         (Receipt.result rc) (toISOString now2).
Proof.
  intros Hold. unfold timeout_callback.
  destruct (assoc (t_requestId tm) (requests st)) as [req|] eqn:Hget; simpl;
    [|intros H; rewrite Hold in H; discriminate].
  destruct (Request.status req =? "pending")%string; simpl;
    [|intros H; rewrite Hold in H; discriminate].
  unfold receipt_of in *. simpl. rewrite assoc_map_set_same.
  rewrite Hget in Hold.
  break_if; simpl.
  - intros [= <-]. simpl. split; reflexivity.
  - rewrite Hold. discriminate.
Qed.

(* ------------------------------------------------------------------------- *)
(** ** The inbox *)
(* ------------------------------------------------------------------------- *)

Lemma inbox_results_perm (st : state) (s : string) (q_priority q_action : value) :
  Permutation (inbox_results st (VStr s) q_priority q_action)
    (filter (inbox_keeps s q_priority q_action) (map_values (requests st))).
Proof.
  unfold inbox_results. rewrite sort_perm. simpl default_to.
  match goal with |- Permutation ?l ?l' => assert (E : l = l') end;
    [|rewrite E; reflexivity].
  unfold inbox_keeps.
  destruct (truthy q_priority), (truthy q_action);
    rewrite ?filter_filter; apply filter_ext; intros r;
    rewrite ?strict_eq_str, ?andb_true_r, <- ?andb_assoc; reflexivity.
Qed.


(* ------------------------------------------------------------------------- *)
(** ** The statements on concrete runs *)
(* ------------------------------------------------------------------------- *)

Import Scenario.

(** Instance of C1: the request resolved by a human. *)
Lemma receipt_iff_status_completed_resolved :
  exists r,
    In (id, r) (requests (state_after resolved))
    /\ Request.status r = "completed"
    /\ (Request.receipt r <> None <-> Request.status r = "completed").
Proof.
  assert (E : assoc id (requests (state_after resolved)) = Some resolved_request)
    by (vm_compute; reflexivity).
  exists resolved_request. split; [now apply assoc_In|]. split; [reflexivity|].
  apply (receipt_iff_status_completed dev_secret dev_port resolved id).
  now apply assoc_In.
Defined.

(** C2 on the code. A DECIDE request created with a timeout of one second
    and fallback [fail] is pending; once its timer has fired its status is
    [expired], not [failed], and it has no receipt, hence no reason
    either. *)
Theorem timeout_with_fail_gives_expired :
  stored Request.fallback (state_after (timed (VStr "fail") VUndefined))
  = Some (VStr "fail")
  /\ status_of (state_after (timed (VStr "fail") VUndefined)) id = Some "pending"
  /\ status_of
       (state_after (timed_out (VStr "fail") VUndefined (t0 + 1000) (t0 + 1000))) id
     = Some "expired"
  /\ receipt_of
       (state_after (timed_out (VStr "fail") VUndefined (t0 + 1000) (t0 + 1000))) id
     = None.
Proof. vm_compute. repeat split. Qed.

(** C3 on the code. A DECIDE request created with a timeout and fallback
    [pause] is pending; once its timer has fired its status is [expired],
    and the [expired] event has been sent to the socket subscribed to it. *)
Theorem timeout_with_pause_gives_expired :
  stored Request.fallback (state_after (watched 3600 (VStr "pause")))
  = Some (VStr "pause")
  /\ status_of (state_after (watched 3600 (VStr "pause"))) id = Some "pending"
  /\ status_of (state_after (watched_timeout 3600 (VStr "pause"))) id
     = Some "expired"
  /\ frames_of dev_secret dev_port initial (watched_timeout 3600 (VStr "pause"))
     = [(7%nat, JSON_stringify (VObj [("event", VStr "expired"); ("receipt", VNull)]))].
Proof. vm_compute. repeat split. Qed.

(** Instance of C4: the request resolved by a human cannot be cancelled. *)
Lemma terminal_request_is_immutable_resolved :
  exists resp,
    cancel (run dev_secret dev_port initial resolved) id
    = (run dev_secret dev_port initial resolved, resp, [])
    /\ http_status resp = 409.
Proof.
  assert (E : assoc id (requests (run dev_secret dev_port initial resolved))
              = Some resolved_request)
    by (vm_compute; reflexivity).
  refine (proj1 (proj2 (terminal_request_is_immutable dev_secret dev_port
                          resolved id _ E _))).
  simpl. auto.
Defined.

(** Outside the documented payloads the test is one of truthiness.
    [validatePayload] only counts the options, so a DECIDE with fallback
    [default] whose [default_option], the empty string, is one of its
    options is stored; it is pending when its timer fires, and ends
    [expired] without receipt. *)
Lemma timeout_default_empty_option_expires :
  stored (fun r => (Request.action r, Request.fallback r,
                    prop (Request.payload r) "default_option",
                    Request.status r))
    (state_after empty_default_created)
  = Some (VStr "DECIDE", VStr "default", VStr "", "pending")
  /\ status_of (state_after empty_default) id = Some "expired"
  /\ receipt_of (state_after empty_default) id = None.
Proof. vm_compute. repeat split. Qed.


(** Instance of C7: the expense rejected without a reason, then with one. *)
Lemma approve_rejection_reason_expense :
  resolve dev_secret (state_after approve_pending) id "dev-human-token"
    (VStr "rejected") VUndefined (t0 + 500)
  = (state_after approve_pending,
     error_response 422 "reason_required"
       "A reason is required when rejecting this request",
     [])
  /\ status_of (state_after approve_pending) id = Some "pending"
  /\ completes
       (resolve dev_secret (state_after approve_pending) id "dev-human-token"
          (VStr "rejected") (VStr "Over budget") (t0 + 500))
       id (VStr "rejected").
Proof.
  assert (E : assoc id (requests (state_after approve_pending))
              = Some pending_approve)
    by (vm_compute; reflexivity).
  split; [|split].
  - refine (proj1 (approve_rejection_reason dev_secret _ id _ "dev-human-token"
                     VUndefined (t0 + 500) E _ _ _) _);
      reflexivity.
  - reflexivity.
  - refine (proj1 (proj2 (approve_rejection_reason dev_secret _ id _
                            "dev-human-token" (VStr "Over budget") (t0 + 500)
                            E _ _ _) "Over budget" eq_refl _));
      try reflexivity. discriminate.
Defined.

(** C8 fails as stated: on an expired request, cancel answers the generic
    conflict, the very response it gives for a completed request. *)
Lemma cancel_expired_is_generic_conflict :
  status_of
    (state_after (timed_out (VStr "pause") VUndefined (t0 + 1000) (t0 + 1000))) id
  = Some "expired"
  /\ status_of (state_after resolved) id = Some "completed"
  /\ snd (fst (cancel
                 (state_after
                    (timed_out (VStr "pause") VUndefined (t0 + 1000) (t0 + 1000)))
                 id))
     = error_response 409 "conflict" "Request already resolved"
  /\ snd (fst (cancel
                 (state_after
                    (timed_out (VStr "pause") VUndefined (t0 + 1000) (t0 + 1000)))
                 id))
     = snd (fst (cancel (state_after resolved) id)).
Proof. vm_compute. repeat split. Qed.

(** Instance of C8 as the code has it: the request expired by its timer. *)
Lemma expired_resolve_distinct_cancel_generic_timed_out :
  resolve dev_secret
    (state_after (timed_out (VStr "pause") VUndefined (t0 + 1000) (t0 + 1000)))
    id "dev-human-token" (VStr "Approve") VUndefined (t0 + 2000)
  = (state_after (timed_out (VStr "pause") VUndefined (t0 + 1000) (t0 + 1000)),
     error_response 409 "expired" "Request has expired", [])
  /\ cancel
       (state_after (timed_out (VStr "pause") VUndefined (t0 + 1000) (t0 + 1000)))
       id
     = (state_after (timed_out (VStr "pause") VUndefined (t0 + 1000) (t0 + 1000)),
        error_response 409 "conflict" "Request already resolved", [])
  /\ error_response 409 "expired" "Request has expired"
     <> error_response 409 "conflict" "Request already resolved".
Proof.
  assert (E : assoc id
                (requests
                   (state_after
                      (timed_out (VStr "pause") VUndefined (t0 + 1000) (t0 + 1000))))
              = Some (expired_request (VStr "pause")))
    by (vm_compute; reflexivity).
  refine (expired_resolve_distinct_cancel_generic dev_secret _ id _
            "dev-human-token" (VStr "Approve") VUndefined (t0 + 2000) E _).
  reflexivity.
Defined.

(** C9 on the code. The receipt written by the timeout callback when the
    clock ticks between its two readings: [completed_at] is the first
    reading, the stored hash is the digest over the second, and it is not
    the digest over the receipt's own [completed_at]. *)
Theorem timeout_receipt_hash_not_over_completed_at :
  receipt_of
    (state_after (timed_out (VStr "default") (VStr "Deny") (t0 + 1000) (t0 + 1001)))
    id = Some (timeout_receipt (t0 + 1000) (t0 + 1001))
  /\ Receipt.completed_at (timeout_receipt (t0 + 1000) (t0 + 1001)) = t0 + 1000
  /\ Receipt.evidence_hash (timeout_receipt (t0 + 1000) (t0 + 1001))
     = generateEvidenceHash dev_secret id (VStr "Deny") (toISOString (t0 + 1001))
  /\ (Receipt.evidence_hash (timeout_receipt (t0 + 1000) (t0 + 1001))
      =? hash_of_receipt dev_secret (timeout_receipt (t0 + 1000) (t0 + 1001)))%string
     = false.
Proof. vm_compute. repeat split. Qed.

(** The same run when the clock does not tick, and the human path: there
    the stored hash is the digest over the receipt's own fields. *)
Lemma receipt_hash_over_completed_at_otherwise :
  option_map (fun rc => (Receipt.evidence_hash rc =? hash_of_receipt dev_secret rc)%string)
    (receipt_of
       (state_after (timed_out (VStr "default") (VStr "Deny") (t0 + 1000) (t0 + 1000)))
       id) = Some true
  /\ option_map (fun rc => (Receipt.evidence_hash rc =? hash_of_receipt dev_secret rc)%string)
       (receipt_of (state_after resolved) id) = Some true.
Proof. vm_compute. split; reflexivity. Qed.

(** Instance of C10: asked for [completed], the inbox of a store holding a
    completed and a pending request returns the completed one. *)
Lemma inbox_completed_of_two :
  map Request.request_id
    (inbox_results (state_after two_requests) (VStr "completed") VUndefined VUndefined)
  = [id]
  /\ prop (body (inbox (state_after two_requests) (VStr "completed")
                   VUndefined VUndefined)) "unresolved" = VNum 0.
Proof. vm_compute. split; reflexivity. Qed.

(* ------------------------------------------------------------------------- *)
(** ** Creation *)
(* ------------------------------------------------------------------------- *)

Lemma strict_eq_true_iff (a : value) (s : string) :
  strict_eq a (VStr s) = true <-> a = VStr s.
Proof.
  split.
  - apply strict_eq_eq.
  - intros ->. simpl. apply String.eqb_refl.
Qed.

Lemma truthy_string (v : value) :
  truthy v && is_string v = true <-> exists s, v = VStr s /\ s <> "".
Proof.
  split.
  - destruct v; simpl; rewrite ?andb_false_r; try discriminate.
    rewrite andb_true_r, negb_true_iff, String.eqb_neq. intros H.
    eexists. split; [reflexivity|assumption].
  - intros [s [-> Hne]]. simpl.
    rewrite andb_true_r, negb_true_iff. now apply String.eqb_neq.
Qed.

Lemma not_truthy_string (v : value) :
  negb (truthy v) || negb (is_string v) = false
  <-> exists s, v = VStr s /\ s <> "".
Proof.
  rewrite <- truthy_string, <- negb_andb, negb_false_iff. reflexivity.
Qed.

Lemma bad_options_false (v : value) :
  bad_options v = false
  <-> exists l, v = VArr l /\ (2 <= length l <= 6)%nat.
Proof.
  split.
  - destruct v; simpl; try discriminate.
    rewrite orb_false_iff, !Z.ltb_ge. intros [H1 H2].
    eexists. split; [reflexivity|lia].
  - intros [l [-> H]]. simpl. rewrite orb_false_iff, !Z.ltb_ge. lia.
Qed.

(** X1. [validatePayload] accepts a payload exactly when it is an object
    (not [null]) and: for DECIDE, [question] is a non-empty string and
    [options] an array of two to six elements; for APPROVE, [item] is a
    non-empty string; for PROVIDE, [prompt] is a non-empty string and
    [input_type] is truthy. Nothing else is looked at: neither the
    elements of [options], nor [default_option], nor the value of
    [input_type]. *)
Theorem validatePayload_accepts (action payload : value) :
  validatePayload action payload = Ret None
  <-> nullish payload = false
      /\ ((action = VStr "DECIDE"
           /\ (exists q, prop payload "question" = VStr q /\ q <> "")
           /\ (exists l, prop payload "options" = VArr l
                         /\ (2 <= length l <= 6)%nat))
          \/ (action = VStr "APPROVE"
              /\ exists i, prop payload "item" = VStr i /\ i <> "")
          \/ (action = VStr "PROVIDE"
              /\ (exists p, prop payload "prompt" = VStr p /\ p <> "")
              /\ truthy (prop payload "input_type") = true)).
Proof.
  unfold validatePayload.
  destruct (strict_eq action (VStr "DECIDE")) eqn:Ed.
  { apply strict_eq_true_iff in Ed. subst action.
    destruct (nullish payload) eqn:En.
    { split; [discriminate|]. intros [H _]. discriminate. }
    destruct (negb (truthy (prop payload "question"))
              || negb (is_string (prop payload "question"))) eqn:Eq.
    { split; [discriminate|].
      intros [_ [[_ [Hq _]]|[[H _]|[H _]]]]; try discriminate.
      apply not_truthy_string in Hq. congruence. }
    apply not_truthy_string in Eq.
    destruct (bad_options (prop payload "options")) eqn:Eo.
    { split; [discriminate|].
      intros [_ [[_ [_ Ho]]|[[H _]|[H _]]]]; try discriminate.
      apply bad_options_false in Ho. congruence. }
    apply bad_options_false in Eo.
    split; [|reflexivity]. intros _. split; [reflexivity|]. left. auto. }
  assert (Hd : action <> VStr "DECIDE").
  { intros H. apply strict_eq_true_iff in H. congruence. }
  destruct (strict_eq action (VStr "APPROVE")) eqn:Ea.
  { apply strict_eq_true_iff in Ea. subst action.
    destruct (nullish payload) eqn:En.
    { split; [discriminate|]. intros [H _]. discriminate. }
    destruct (negb (truthy (prop payload "item"))
              || negb (is_string (prop payload "item"))) eqn:Ei.
    { split; [discriminate|].
      intros [_ [[H _]|[[_ Hi]|[H _]]]]; try discriminate.
      apply not_truthy_string in Hi. congruence. }
    apply not_truthy_string in Ei.
    split; [|reflexivity]. intros _. split; [reflexivity|]. right. left. auto. }
  assert (Ha : action <> VStr "APPROVE").
  { intros H. apply strict_eq_true_iff in H. congruence. }
  destruct (strict_eq action (VStr "PROVIDE")) eqn:Ep.
  { apply strict_eq_true_iff in Ep. subst action.
    destruct (nullish payload) eqn:En.
    { split; [discriminate|]. intros [H _]. discriminate. }
    destruct (negb (truthy (prop payload "prompt"))
              || negb (is_string (prop payload "prompt"))) eqn:Epr.
    { split; [discriminate|].
      intros [_ [[H _]|[[H _]|[_ [Hp _]]]]]; try discriminate.
      apply not_truthy_string in Hp. congruence. }
    apply not_truthy_string in Epr.
    destruct (negb (truthy (prop payload "input_type"))) eqn:Et.
    { split; [discriminate|].
      intros [_ [[H _]|[[H _]|[_ [_ Ht]]]]]; try discriminate.
      rewrite Ht in Et. discriminate. }
    apply negb_false_iff in Et.
    split; [|reflexivity]. intros _. split; [reflexivity|]. right. right. auto. }
  split; [discriminate|].
  intros [_ [[H _]|[[H _]|[H _]]]]; subst action; simpl in *; discriminate.
Qed.


(** X3. A create that answers 201 arms a timer exactly when
    [timeout_seconds] is positive: then one timer is added, capturing the
    stored request's own id, fallback, action, payload and timeout, and
    [expires_at] is the clock read by [Date.now()] plus that many seconds;
    otherwise the timers are as before and [expires_at] is [null]. *)
Theorem create_arms_timer_when_positive
  (PORT : string) (st : state) (b : Body.t) (uuid : string) (now date_now : Z)
  (r : Request.t) :
  http_status (snd (create PORT st b uuid now date_now)) = 201 ->
  assoc (make_request_id uuid)
    (requests (fst (create PORT st b uuid now date_now))) = Some r ->
  (0 < Request.timeout_seconds r ->
   exists tm,
     timers (fst (create PORT st b uuid now date_now)) = (timers st ++ [tm])%list
     /\ armed_for tm r
     /\ Request.expires_at r
        = Some (date_now + Request.timeout_seconds r * 1000))
  /\ (Request.timeout_seconds r <= 0 ->
      timers (fst (create PORT st b uuid now date_now)) = timers st
      /\ Request.expires_at r = None).
Proof.
  unfold create.
  destruct (negb (includes VALID_ACTIONS (Body.action b)));
    [simpl; discriminate|].
  destruct (negb (includes VALID_ROLES (default_to (VStr "owner") (Body.role b))));
    [simpl; discriminate|].
  destruct (validatePayload (Body.action b)
              (default_to (VObj []) (Body.payload b))) as [[e|]|];
    [simpl; discriminate| |simpl; discriminate].
  break_if; [simpl; discriminate|].
  simpl. rewrite assoc_map_set_same. intros _ [= <-]. simpl.
  split.
  - intros Hpos. apply Z.ltb_lt in Hpos. rewrite Hpos.
    eexists. split; [reflexivity|]. split; [|reflexivity]. repeat split.
  - intros Hle. apply Z.ltb_ge in Hle. rewrite Hle. split; reflexivity.
Qed.

(** Instance: the DECIDE request with one second of timeout. *)
Lemma create_arms_timer_when_positive_one_second :
  exists tm,
    timers (fst (create dev_port initial
                   (Scenario.decide_body (Some 1) (VStr "default") (VStr "Deny"))
                   Scenario.uuid Scenario.t0 Scenario.t0))
    = (timers initial ++ [tm])%list
    /\ armed_for tm (Scenario.pending_decide (VStr "default") (VStr "Deny"))
    /\ Request.expires_at (Scenario.pending_decide (VStr "default") (VStr "Deny"))
       = Some (Scenario.t0
               + Request.timeout_seconds
                   (Scenario.pending_decide (VStr "default") (VStr "Deny")) * 1000).
Proof.
  refine (proj1 (create_arms_timer_when_positive dev_port initial
                   (Scenario.decide_body (Some 1) (VStr "default") (VStr "Deny"))
                   Scenario.uuid Scenario.t0 Scenario.t0
                   (Scenario.pending_decide (VStr "default") (VStr "Deny")) _ _) _).
  - reflexivity.
  - reflexivity.
  - reflexivity.
Defined.

Lemma all_requests_set (P : Request.t -> Prop) (st : state) (id : string)
  (r' : Request.t) (subs : list (string * list ws)) (tms : list timer) :
  all_requests P st -> P r' ->
  all_requests P (mkState (map_set id r' (requests st)) subs tms).
Proof.
  intros Hst Hr k r Hin. simpl in Hin.
  apply In_map_set in Hin as [E|Hin]; [|eapply Hst; eassumption].
  inversion E; subst. assumption.
Qed.

Lemma ws_connection_timers st sock requestId :
  timers (fst (ws_connection st sock requestId)) = timers st.
Proof.
  unfold ws_connection. repeat (break_if || break_match); reflexivity.
Qed.

Lemma ws_close_timers st handle requestId :
  timers (ws_close st handle requestId) = timers st.
Proof.
  unfold ws_close. repeat (break_if || break_match); reflexivity.
Qed.

Lemma step_untimed (SERVER_SECRET PORT : string) (st : state) (o : op) :
  untimed o ->
  timers st = [] ->
  all_requests
    (fun r => In (Request.status r) ["pending"; "completed"; "cancelled"]) st ->
  timers (fst (fst (step SERVER_SECRET PORT st o))) = []
  /\ all_requests
       (fun r => In (Request.status r) ["pending"; "completed"; "cancelled"])
       (fst (fst (step SERVER_SECRET PORT st o))).
Proof.
  intros Hu Ht Hst. destruct o; unfold step.
  - unfold create.
    assert (Hz : (0 <? match Body.timeout_seconds b with
                       | Some n => n
                       | None => 0
                       end) = false).
    { simpl in Hu. destruct (Body.timeout_seconds b); apply Z.ltb_ge; lia. }
    rewrite Hz, andb_false_l.
    destruct (negb (includes VALID_ACTIONS (Body.action b)));
      [split; [exact Ht|exact Hst]|].
    destruct (negb (includes VALID_ROLES
                      (default_to (VStr "owner") (Body.role b))));
      [split; [exact Ht|exact Hst]|].
    destruct (validatePayload (Body.action b)
                (default_to (VObj []) (Body.payload b))) as [[e|]|];
      [split; [exact Ht|exact Hst]| |split; [exact Ht|exact Hst]].
    split; [exact Ht|].
    apply all_requests_set; [exact Hst|]. simpl. auto.
  - split; [exact Ht|exact Hst].
  - unfold cancel.
    destruct (assoc _ (requests st)) as [request|]; [|split; [exact Ht|exact Hst]].
    break_if; [split; [exact Ht|exact Hst]|].
    split; [exact Ht|].
    apply all_requests_set; [exact Hst|]. simpl. auto.
  - split; [exact Ht|exact Hst].
  - unfold resolve.
    destruct (assoc _ (requests st)) as [request|]; [|split; [exact Ht|exact Hst]].
    repeat break_if; try (split; [exact Ht|exact Hst]).
    all: destruct (validateResult request result) as [[e|]|];
      try (split; [exact Ht|exact Hst]).
    split; [exact Ht|].
    apply all_requests_set; [exact Hst|]. simpl. auto.
  - unfold fire. rewrite Ht. destruct n; (split; [exact Ht|exact Hst]).
  - pose proof (ws_connection_requests st sock requestId) as Hr.
    pose proof (ws_connection_timers st sock requestId) as Htm.
    destruct (ws_connection st sock requestId) as [st' fs]. simpl in *.
    split; [congruence|]. unfold all_requests. now rewrite Hr.
  - simpl. rewrite ws_close_timers. split; [exact Ht|].
    unfold all_requests. now rewrite ws_close_requests.
  - split; [exact Ht|exact Hst].
Qed.

(** X4. In a run where no create has a positive [timeout_seconds], no
    timer is ever armed and no request ever expires: every stored request
    is pending, completed or cancelled. *)
Theorem untimed_run_never_expires
  (SERVER_SECRET PORT : string) (ops : list op) :
  Forall untimed ops ->
  timers (run SERVER_SECRET PORT initial ops) = []
  /\ forall id r,
       In (id, r) (requests (run SERVER_SECRET PORT initial ops)) ->
       In (Request.status r) ["pending"; "completed"; "cancelled"].
Proof.
  intros Hops.
  assert (H : forall st,
             timers st = [] ->
             all_requests
               (fun r => In (Request.status r) ["pending"; "completed"; "cancelled"])
               st ->
             timers (run SERVER_SECRET PORT st ops) = []
             /\ all_requests
                  (fun r => In (Request.status r)
                              ["pending"; "completed"; "cancelled"])
                  (run SERVER_SECRET PORT st ops)).
  { induction Hops as [|o ops Ho Hops IH]; intros st Ht Hst; simpl; [now split|].
    destruct (step_untimed SERVER_SECRET PORT st o Ho Ht Hst) as [Ht' Hst'].
    now apply IH. }
  apply H; [reflexivity|]. intros id r [].
Qed.

(** Instance: the run that creates a request without timeout and resolves
    it. *)
Lemma untimed_run_never_expires_resolved :
  timers (run dev_secret dev_port initial Scenario.resolved) = []
  /\ In (Request.status Scenario.resolved_request)
       ["pending"; "completed"; "cancelled"].
Proof.
  assert (Hu : Forall untimed Scenario.resolved)
    by (repeat constructor).
  assert (E : assoc Scenario.id
                (requests (run dev_secret dev_port initial Scenario.resolved))
              = Some Scenario.resolved_request)
    by (vm_compute; reflexivity).
  split.
  - exact (proj1 (untimed_run_never_expires dev_secret dev_port
                    Scenario.resolved Hu)).
  - exact (proj2 (untimed_run_never_expires dev_secret dev_port
                    Scenario.resolved Hu)
             Scenario.id Scenario.resolved_request (assoc_In _ _ _ E)).
Defined.

(* ------------------------------------------------------------------------- *)
(** ** What a transition touches *)
(* ------------------------------------------------------------------------- *)

Lemma assoc_map_set_other {A : Type} (k k' : string) (a : A)
  (m : list (string * A)) :
  k' <> k -> assoc k' (map_set k a m) = assoc k' m.
Proof.
  intros Hne. induction m as [|[k0 a0] m IH]; simpl.
  - destruct (k =? k')%string eqn:E; [|reflexivity].
    apply String.eqb_eq in E. congruence.
  - destruct (k0 =? k)%string eqn:E; simpl.
    + apply String.eqb_eq in E. subst k0.
      destruct (k =? k')%string eqn:E'; [|reflexivity].
      apply String.eqb_eq in E'. congruence.
    + now rewrite IH.
Qed.

Lemma same_data_refl (r : Request.t) : same_data r r.
Proof. repeat split. Qed.

Lemma touches_only_refl (id : string) (st : state) : touches_only id st st.
Proof.
  repeat split. destruct (assoc id (requests st)); [apply same_data_refl|exact I].
Qed.

Lemma touches_only_set (id : string) (st : state) (r r' : Request.t) :
  assoc id (requests st) = Some r -> same_data r r' ->
  touches_only id st (with_requests st (map_set id r' (requests st))).
Proof.
  intros Hget Hsame. repeat split.
  - intros id' Hne. simpl. now apply assoc_map_set_other.
  - simpl. rewrite Hget, assoc_map_set_same. exact Hsame.
Qed.

(** X5. Resolving, cancelling and the timeout callback change nothing but
    the request under their id, and of that request nothing but the status
    and the receipt: every other stored request, the subscriptions and the
    armed timers are as before, no request is added or removed, and the
    action, payload, priority, dates and other fields stay. *)
Theorem transitions_touch_only_their_request
  (SERVER_SECRET : string) (st : state) (id humanId : string)
  (result reason : value) (now now1 now2 : Z) (tm : timer) :
  touches_only id st
    (fst (fst (resolve SERVER_SECRET st id humanId result reason now)))
  /\ touches_only id st (fst (fst (cancel st id)))
  /\ touches_only (t_requestId tm) st
       (fst (timeout_callback SERVER_SECRET st tm now1 now2)).
Proof.
  split; [|split].
  - unfold resolve.
    destruct (assoc id (requests st)) as [request|] eqn:Hget;
      [|apply touches_only_refl].
    repeat (break_if || break_match); try apply touches_only_refl.
    simpl. apply (touches_only_set id st request); [assumption|]. repeat split.
  - unfold cancel.
    destruct (assoc id (requests st)) as [request|] eqn:Hget;
      [|apply touches_only_refl].
    break_if; [apply touches_only_refl|].
    simpl. apply (touches_only_set id st request); [assumption|]. repeat split.
  - unfold timeout_callback.
    destruct (assoc (t_requestId tm) (requests st)) as [req|] eqn:Hget;
      [|apply touches_only_refl].
    break_if; [|apply touches_only_refl].
    simpl. apply (touches_only_set _ st req); [assumption|].
    break_if; repeat split.
Qed.

(* ------------------------------------------------------------------------- *)
(** ** The timeout with fallback [default] *)
(* ------------------------------------------------------------------------- *)

Lemma resolve_touches_only
  (SERVER_SECRET : string) (st : state) (id humanId : string)
  (result reason : value) (now : Z) :
  touches_only id st
    (fst (fst (resolve SERVER_SECRET st id humanId result reason now))).
Proof.
  unfold resolve.
  destruct (assoc id (requests st)) as [request|] eqn:Hget;
    [|apply touches_only_refl].
  repeat (break_if || break_match); try apply touches_only_refl.
  simpl. apply (touches_only_set id st request); [assumption|]. repeat split.
Qed.

Lemma cancel_touches_only (st : state) (id : string) :
  touches_only id st (fst (fst (cancel st id))).
Proof.
  unfold cancel.
  destruct (assoc id (requests st)) as [request|] eqn:Hget;
    [|apply touches_only_refl].
  break_if; [apply touches_only_refl|].
  simpl. apply (touches_only_set id st request); [assumption|]. repeat split.
Qed.

Lemma timeout_callback_touches_only
  (SERVER_SECRET : string) (st : state) (tm : timer) (now1 now2 : Z) :
  touches_only (t_requestId tm) st
    (fst (timeout_callback SERVER_SECRET st tm now1 now2)).
Proof.
  unfold timeout_callback.
  destruct (assoc (t_requestId tm) (requests st)) as [req|] eqn:Hget;
    [|apply touches_only_refl].
  break_if; [|apply touches_only_refl].
  simpl. apply (touches_only_set _ st req); [assumption|].
  break_if; repeat split.
Qed.

(** A transition that touches only one request stores no new id. *)
Lemma touches_only_absent (id k : string) (st st' : state) :
  touches_only id st st' ->
  assoc k (requests st) = None -> assoc k (requests st') = None.
Proof.
  intros [_ [_ [Hother Hid]]] Hk.
  destruct (string_dec k id) as [E|Hne].
  - subst k. rewrite Hk in Hid.
    destruct (assoc id (requests st')); [contradiction|reflexivity].
  - now rewrite Hother.
Qed.

Lemma armed_for_same_data (tm : timer) (r r' : Request.t) :
  same_data r r' -> armed_for tm r -> armed_for tm r'.
Proof.
  intros [Hid [Hact [_ [_ [Hto [Hfb [_ [_ [_ [Hpay _]]]]]]]]]] [A1 [A2 [A3 [A4 A5]]]].
  repeat split; congruence.
Qed.

(** ... and the timers stay those of the requests under their ids. *)
Lemma touches_only_timers_armed (id : string) (st st' : state) :
  touches_only id st st' -> timers_armed st -> timers_armed st'.
Proof.
  intros [_ [Ht [Hother Hid]]] Harm tm Hin. rewrite Ht in Hin.
  destruct (Harm tm Hin) as [r [Hget Ha]].
  destruct (string_dec (t_requestId tm) id) as [E|Hne].
  - rewrite E in Hget. rewrite Hget in Hid.
    destruct (assoc id (requests st')) as [r'|] eqn:Hget'; [|contradiction].
    exists r'. split; [now rewrite E|].
    eapply armed_for_same_data; eassumption.
  - exists r. split; [|assumption]. now rewrite Hother.
Qed.

Lemma In_remove_nth {A : Type} (n : nat) (l : list A) (x : A) :
  In x (remove_nth n l) -> In x l.
Proof.
  revert n. induction l as [|a l IH]; intros [|n]; simpl; auto.
  intros [E|H]; [now left|right; eauto].
Qed.

Lemma fire_touches_only
  (SERVER_SECRET : string) (st : state) (n : nat) (now1 now2 : Z) :
  timers_armed st ->
  timers_armed (fst (fire SERVER_SECRET st n now1 now2))
  /\ forall k, assoc k (requests st) = None ->
       assoc k (requests (fst (fire SERVER_SECRET st n now1 now2))) = None.
Proof.
  intros Harm. unfold fire.
  destruct (nth_error (timers st) n) as [tm|]; [|now split].
  pose proof (timeout_callback_touches_only SERVER_SECRET
                (mkState (requests st) (wsSubscriptions st)
                   (remove_nth n (timers st))) tm now1 now2) as Ht.
  split.
  - apply (touches_only_timers_armed _ _ _ Ht).
    intros tm' Hin. simpl in Hin. apply In_remove_nth in Hin.
    exact (Harm tm' Hin).
  - intros k Hk. now apply (touches_only_absent _ k _ _ Ht).
Qed.

(** The create handler stores at most one request, under the id it is
    given. *)
Lemma create_requests
  (PORT : string) (st : state) (b : Body.t) (uuid : string) (now date_now : Z) :
  requests (fst (create PORT st b uuid now date_now)) = requests st
  \/ exists r,
       requests (fst (create PORT st b uuid now date_now))
       = map_set (make_request_id uuid) r (requests st).
Proof.
  unfold create.
  repeat (break_if || break_match); simpl; auto.
  all: right; eexists; reflexivity.
Qed.

Lemma create_timers_armed
  (PORT : string) (st : state) (b : Body.t) (uuid : string) (now date_now : Z) :
  assoc (make_request_id uuid) (requests st) = None ->
  timers_armed st ->
  timers_armed (fst (create PORT st b uuid now date_now)).
Proof.
  intros Hfresh Harm tm Hin.
  destruct (create_arms_for _ _ _ _ _ _ _ Hin) as [Hold|[r [Hget [Ha _]]]];
    [|now exists r].
  destruct (Harm tm Hold) as [r [Hget Ha]].
  exists r. split; [|assumption].
  destruct (create_requests PORT st b uuid now date_now) as [E|[r0 E]];
    rewrite E; [assumption|].
  rewrite assoc_map_set_other; [assumption|].
  intros Heq. rewrite Heq in Hget. congruence.
Qed.

Lemma create_absent
  (PORT : string) (st : state) (b : Body.t) (uuid : string) (now date_now : Z)
  (k : string) :
  k <> make_request_id uuid ->
  assoc k (requests st) = None ->
  assoc k (requests (fst (create PORT st b uuid now date_now))) = None.
Proof.
  intros Hne Hk.
  destruct (create_requests PORT st b uuid now date_now) as [E|[r0 E]];
    rewrite E; [assumption|].
  now rewrite assoc_map_set_other.
Qed.

Lemma NoDup_app_In {A : Type} (l1 l2 : list A) (x : A) :
  NoDup (l1 ++ l2)%list -> In x l1 -> In x l2 -> False.
Proof.
  induction l1 as [|a l1 IH]; simpl; [tauto|].
  intros Hnd [E|H1] H2; inversion Hnd as [|? ? Hnotin Hnd']; subst.
  - apply Hnotin, in_or_app. now right.
  - now apply IH.
Qed.

Lemma created_ids_cons (o : op) (ops : list op) :
  created_ids (o :: ops) = (created_ids [o] ++ created_ids ops)%list.
Proof. destruct o; reflexivity. Qed.

(** A step given an id that is not in use keeps every timer the closure of
    the request under its id, and stores no other new id. *)
Lemma step_timers_armed (SERVER_SECRET PORT : string) (st : state) (o : op) :
  (forall k, In k (created_ids [o]) -> assoc k (requests st) = None) ->
  timers_armed st ->
  timers_armed (fst (fst (step SERVER_SECRET PORT st o)))
  /\ forall k, ~ In k (created_ids [o]) ->
       assoc k (requests st) = None ->
       assoc k (requests (fst (fst (step SERVER_SECRET PORT st o)))) = None.
Proof.
  intros Hfresh Harm.
  destruct o as [b u now date_now|i|i|qs qp qa|i humanId result reason now
                |n now1 now2|sock requestId|handle requestId|handle rs];
    unfold step.
  - pose proof (create_timers_armed PORT st b u now date_now
                  (Hfresh _ (or_introl eq_refl)) Harm) as H1.
    pose proof (fun k => create_absent PORT st b u now date_now k) as H2.
    destruct (create PORT st b u now date_now) as [st' resp]. simpl in *.
    split; [exact H1|]. intros k Hk. apply H2. intros E. apply Hk. now left.
  - simpl. now split.
  - pose proof (cancel_touches_only st i) as Ht.
    destruct (cancel st i) as [[st' resp] fs]. simpl in *.
    split; [now apply (touches_only_timers_armed _ _ _ Ht)|].
    intros k _. now apply (touches_only_absent _ k _ _ Ht).
  - simpl. now split.
  - pose proof (resolve_touches_only SERVER_SECRET st i humanId result reason now)
      as Ht.
    destruct (resolve SERVER_SECRET st i humanId result reason now)
      as [[st' resp] fs]. simpl in *.
    split; [now apply (touches_only_timers_armed _ _ _ Ht)|].
    intros k _. now apply (touches_only_absent _ k _ _ Ht).
  - pose proof (fire_touches_only SERVER_SECRET st n now1 now2 Harm) as [H1 H2].
    destruct (fire SERVER_SECRET st n now1 now2) as [st' fs]. simpl in *.
    split; [exact H1|]. intros k _. apply H2.
  - pose proof (ws_connection_requests st sock requestId) as Hr.
    pose proof (ws_connection_timers st sock requestId) as Htm.
    destruct (ws_connection st sock requestId) as [st' fs]. simpl in *.
    split.
    + intros tm Hin. rewrite Htm in Hin. rewrite Hr. now apply Harm.
    + intros k _. now rewrite Hr.
  - simpl. split.
    + intros tm Hin. rewrite ws_close_timers in Hin.
      rewrite ws_close_requests. now apply Harm.
    + intros k _. now rewrite ws_close_requests.
  - simpl. now split.
Qed.

(** When no two creates of a run are given the same id, every armed timer
    is the closure of the request stored under its id. *)
Lemma run_timers_armed (SERVER_SECRET PORT : string) (ops : list op) :
  forall st,
    NoDup (created_ids ops) ->
    (forall k, In k (created_ids ops) -> assoc k (requests st) = None) ->
    timers_armed st ->
    timers_armed (run SERVER_SECRET PORT st ops).
Proof.
  induction ops as [|o ops IH]; intros st Hnd Hfresh Harm; [exact Harm|].
  rewrite created_ids_cons in Hnd, Hfresh.
  destruct (step_timers_armed SERVER_SECRET PORT st o) as [H1 H2];
    [intros k Hk; apply Hfresh, in_or_app; now left|exact Harm|].
  simpl. apply IH.
  - now apply NoDup_app_remove_l in Hnd.
  - intros k Hk. apply H2.
    + intros Hin. exact (NoDup_app_In _ _ k Hnd Hin Hk).
    + apply Hfresh, in_or_app. now right.
  - exact H1.
Qed.

Lemma documented_default_truthy (p : value) :
  documented_decide p ->
  prop p "default_option" <> VUndefined ->
  truthy (prop p "default_option") = true.
Proof.
  intros [options [_ [Hall Hin]]] Hpresent.
  rewrite Forall_forall in Hall.
  destruct (Hall _ (Hin Hpresent)) as [s [-> Hs]]. simpl.
  apply negb_true_iff, String.eqb_neq. exact Hs.
Qed.

(** C5. In a run whose creates are given distinct ids, let an armed timer
    fire for a request that is still pending and whose fallback is
    [default]. If the request is a DECIDE, documented as such (options that
    are non-empty strings, the default one of them), and its payload has a
    [default_option], then after that fire the request is [completed] and
    has a receipt whose result is the default option, whose [completed_by]
    is [system] and whose reason is the timeout narration. If the action is
    not DECIDE or the payload has no [default_option], then after that fire
    the request is [expired] and has no receipt. *)
Theorem timeout_default_fallback
  (SERVER_SECRET PORT : string) (ops : list op) (n : nat) (tm : timer)
  (r : Request.t) (now1 now2 : Z) :
  NoDup (created_ids ops) ->
  nth_error (timers (run SERVER_SECRET PORT initial ops)) n = Some tm ->
  assoc (t_requestId tm) (requests (run SERVER_SECRET PORT initial ops)) = Some r ->
  Request.status r = "pending" ->
  Request.fallback r = VStr "default" ->
  (Request.action r = VStr "DECIDE" ->
   documented_decide (Request.payload r) ->
   prop (Request.payload r) "default_option" <> VUndefined ->
   exists rc,
     status_of
       (fst (fire SERVER_SECRET (run SERVER_SECRET PORT initial ops) n now1 now2))
       (Request.request_id r) = Some "completed"
     /\ receipt_of
          (fst (fire SERVER_SECRET (run SERVER_SECRET PORT initial ops) n now1 now2))
          (Request.request_id r) = Some rc
     /\ Receipt.result rc = prop (Request.payload r) "default_option"
     /\ Receipt.completed_by rc = "system"
     /\ Receipt.reason rc = VStr "Timeout — default option applied")
  /\ (Request.action r <> VStr "DECIDE"
      \/ prop (Request.payload r) "default_option" = VUndefined ->
      status_of
        (fst (fire SERVER_SECRET (run SERVER_SECRET PORT initial ops) n now1 now2))
        (Request.request_id r) = Some "expired"
      /\ receipt_of
           (fst (fire SERVER_SECRET (run SERVER_SECRET PORT initial ops) n now1 now2))
           (Request.request_id r) = None).
Proof.
  intros Hnd Hnth Hget Hs Hdef.
  assert (Harm : armed_for tm r).
  { destruct (run_timers_armed SERVER_SECRET PORT ops initial Hnd) with (tm := tm)
      as [r0 [Hget0 Ha]].
    - reflexivity.
    - intros tm' [].
    - eapply nth_error_In; eassumption.
    - congruence. }
  assert (Hnone : Request.receipt r = None).
  { apply request_ok_no_receipt_inv; [|rewrite Hs; discriminate].
    apply (reachable_request_ok SERVER_SECRET PORT ops (t_requestId tm)).
    now apply assoc_In. }
  assert (Hid : Request.request_id r = t_requestId tm)
    by (symmetry; apply Harm).
  rewrite Hid. unfold fire. rewrite Hnth.
  destruct (timeout_callback_default SERVER_SECRET
              (mkState (requests (run SERVER_SECRET PORT initial ops))
                 (wsSubscriptions (run SERVER_SECRET PORT initial ops))
                 (remove_nth n (timers (run SERVER_SECRET PORT initial ops))))
              tm r now1 now2 Hget Harm Hs Hdef) as [Hyes Hno].
  split.
  - intros Hact Hdoc Hpresent. apply Hyes; [assumption|].
    now apply documented_default_truthy.
  - intros Hother. rewrite <- Hnone. apply Hno.
    destruct Hother as [Hact|Habsent]; [now left|right].
    now rewrite Habsent.
Qed.

(** Instance of C5: the default option [Deny] of the request created with
    one second of timeout, and the same request without default option. *)
Lemma timeout_default_fallback_deny :
  (exists rc,
     status_of
       (fst (fire dev_secret (state_after (timed (VStr "default") (VStr "Deny")))
               0 (t0 + 1000) (t0 + 1000))) id = Some "completed"
     /\ receipt_of
          (fst (fire dev_secret (state_after (timed (VStr "default") (VStr "Deny")))
                  0 (t0 + 1000) (t0 + 1000))) id = Some rc
     /\ Receipt.result rc = VStr "Deny"
     /\ Receipt.completed_by rc = "system"
     /\ Receipt.reason rc = VStr "Timeout — default option applied")
  /\ status_of
       (fst (fire dev_secret (state_after (timed (VStr "default") VUndefined))
               0 (t0 + 1000) (t0 + 1000))) id = Some "expired"
  /\ receipt_of
       (fst (fire dev_secret (state_after (timed (VStr "default") VUndefined))
               0 (t0 + 1000) (t0 + 1000))) id = None.
Proof.
  assert (Hnd : forall d, NoDup (created_ids (timed (VStr "default") d)))
    by (intros d; repeat constructor; simpl; tauto).
  assert (Hnth : forall d,
             nth_error (timers (run dev_secret dev_port initial
                                  (timed (VStr "default") d))) 0
             = Some (mkTimer id (VStr "default") (VStr "DECIDE")
                       (decide_payload d) 1))
    by (intros d; reflexivity).
  assert (Hget : forall d,
             assoc id (requests (run dev_secret dev_port initial
                                   (timed (VStr "default") d)))
             = Some (pending_decide (VStr "default") d))
    by (intros d; reflexivity).
  assert (Hdoc : documented_decide (decide_payload (VStr "Deny"))).
  { exists [VStr "Approve"; VStr "Deny"]. split; [reflexivity|]. split.
    - repeat constructor; eexists; (split; [reflexivity|discriminate]).
    - intros _. simpl. auto. }
  split.
  - refine (proj1 (timeout_default_fallback dev_secret dev_port
                     (timed (VStr "default") (VStr "Deny")) 0 _
                     (pending_decide (VStr "default") (VStr "Deny"))
                     (t0 + 1000) (t0 + 1000)
                     (Hnd _) (Hnth _) (Hget _) eq_refl eq_refl)
                  eq_refl Hdoc _).
    discriminate.
  - refine (proj2 (timeout_default_fallback dev_secret dev_port
                     (timed (VStr "default") VUndefined) 0 _
                     (pending_decide (VStr "default") VUndefined)
                     (t0 + 1000) (t0 + 1000)
                     (Hnd _) (Hnth _) (Hget _) eq_refl eq_refl) _).
    right. reflexivity.
Defined.

(** X6. Cancelling a request that is pending (or assigned) answers 200,
    stores the status [cancelled] and no receipt, and sends the
    [cancelled] event, without receipt, to the open sockets subscribed to
    it. After that, a resolve of the same request and a second cancel are
    both answered 409 [conflict] and change nothing. *)
Theorem cancel_open_request
  (SERVER_SECRET : string) (st : state) (id : string) (r : Request.t)
  (humanId : string) (result reason : value) (now : Z) :
  assoc id (requests st) = Some r ->
  Request.status r = "pending" \/ Request.status r = "assigned" ->
  Request.receipt r = None ->
  snd (fst (cancel st id))
  = mkResponse 200 []
      (VObj [("request_id", VStr id); ("status", VStr "cancelled")])
  /\ snd (cancel st id)
     = notifySubscribers st id (VObj [("event", VStr "cancelled")])
  /\ status_of (fst (fst (cancel st id))) id = Some "cancelled"
  /\ receipt_of (fst (fst (cancel st id))) id = None
  /\ resolve SERVER_SECRET (fst (fst (cancel st id))) id humanId result reason now
     = (fst (fst (cancel st id)),
        error_response 409 "conflict" "Request already resolved", [])
  /\ cancel (fst (fst (cancel st id))) id
     = (fst (fst (cancel st id)),
        error_response 409 "conflict" "Request already resolved", []).
Proof.
  intros Hget Hs Hr.
  assert (Hc : cancel st id
               = (with_requests st
                    (map_set id (Request.set_status "cancelled" r) (requests st)),
                  mkResponse 200 []
                    (VObj [("request_id", VStr id); ("status", VStr "cancelled")]),
                  notifySubscribers st id (VObj [("event", VStr "cancelled")]))).
  { unfold cancel. rewrite Hget.
    destruct Hs as [-> | ->]; reflexivity. }
  rewrite Hc. simpl.
  assert (Hget' : assoc id
                    (requests
                       (with_requests st
                          (map_set id (Request.set_status "cancelled" r)
                             (requests st))))
                  = Some (Request.set_status "cancelled" r))
    by (simpl; apply assoc_map_set_same).
  repeat split.
  - unfold status_of. now rewrite Hget'.
  - unfold receipt_of. now rewrite Hget'.
  - apply (resolve_already_resolved _ _ _ _ Hget'). now right.
  - apply (cancel_not_open _ _ _ Hget'); simpl; discriminate.
Qed.

(** Instance: the pending APPROVE request. *)
Lemma cancel_open_request_expense :
  status_of (fst (fst (cancel (Scenario.state_after Scenario.approve_pending)
                         Scenario.id))) Scenario.id
  = Some "cancelled"
  /\ resolve dev_secret
       (fst (fst (cancel (Scenario.state_after Scenario.approve_pending)
                    Scenario.id)))
       Scenario.id "dev-human-token" (VStr "approved") VUndefined
       (Scenario.t0 + 500)
     = (fst (fst (cancel (Scenario.state_after Scenario.approve_pending)
                    Scenario.id)),
        error_response 409 "conflict" "Request already resolved", []).
Proof.
  assert (E : assoc Scenario.id
                (requests (Scenario.state_after Scenario.approve_pending))
              = Some Scenario.pending_approve)
    by (vm_compute; reflexivity).
  pose proof (cancel_open_request dev_secret _ Scenario.id _ "dev-human-token"
                (VStr "approved") VUndefined (Scenario.t0 + 500) E
                (or_introl eq_refl) eq_refl) as H.
  split; [exact (proj1 (proj2 (proj2 H)))|].
  exact (proj1 (proj2 (proj2 (proj2 (proj2 H))))).
Defined.

(** X7. An id that is not in the store: the status route, resolve and
    cancel answer 404 [not_found], a timer armed for it does nothing, and
    none of them changes the state or sends a frame. *)
Theorem unknown_id_is_not_found
  (SERVER_SECRET : string) (st : state) (id humanId : string)
  (result reason : value) (now now1 now2 : Z) (tm : timer) :
  assoc id (requests st) = None ->
  get_request st id = error_response 404 "not_found" "Request not found"
  /\ resolve SERVER_SECRET st id humanId result reason now
     = (st, error_response 404 "not_found" "Request not found", [])
  /\ cancel st id
     = (st, error_response 404 "not_found" "Request not found", [])
  /\ (t_requestId tm = id ->
      timeout_callback SERVER_SECRET st tm now1 now2 = (st, [])).
Proof.
  intros Hget. unfold get_request, resolve, cancel, timeout_callback.
  rewrite Hget. repeat split. intros ->. now rewrite Hget.
Qed.

(** Instance: the empty store. *)
Lemma unknown_id_is_not_found_empty :
  get_request initial "hxp_000000000000"
  = error_response 404 "not_found" "Request not found"
  /\ cancel initial "hxp_000000000000"
     = (initial, error_response 404 "not_found" "Request not found", []).
Proof.
  pose proof (unknown_id_is_not_found dev_secret initial "hxp_000000000000"
                "dev-human-token" VNull VNull 0 0 0
                (mkTimer "hxp_000000000000" VNull VNull VNull 0) eq_refl) as H.
  split; [exact (proj1 H)|exact (proj1 (proj2 (proj2 H)))].
Defined.

(* ------------------------------------------------------------------------- *)
(** ** Resolution of PROVIDE and APPROVE requests *)
(* ------------------------------------------------------------------------- *)

Lemma resolve_open_guards (r : Request.t) (result : value) :
  Request.status r = "pending" \/ Request.status r = "assigned" ->
  ((Request.status r =? "completed")%string
   || (Request.status r =? "cancelled")%string) = false
  /\ (Request.status r =? "expired")%string = false
  /\ (strict_eq result VUndefined || strict_eq result VNull) = nullish result.
Proof.
  intros Hs. repeat split.
  - destruct Hs as [-> | ->]; reflexivity.
  - destruct Hs as [-> | ->]; reflexivity.
  - destruct result; reflexivity.
Qed.



(** X9. For a stored APPROVE request that is pending (or assigned):
    [approved] completes it, with or without a reason and whatever
    [reject_requires_reason] says; [rejected] completes it without a reason
    when [reject_requires_reason] is absent or falsy; a result that is
    neither of the two strings is answered 422 [invalid_result], and one
    that is [null] or absent 400 [missing_result], the state being left as
    it was. *)
Theorem approve_resolution
  (SERVER_SECRET : string) (st : state) (id : string) (r : Request.t)
  (humanId : string) (result reason : value) (now : Z) :
  assoc id (requests st) = Some r ->
  Request.action r = VStr "APPROVE" ->
  Request.status r = "pending" \/ Request.status r = "assigned" ->
  (result = VStr "approved" ->
   completes (resolve SERVER_SECRET st id humanId result reason now) id result)
  /\ (result = VStr "rejected" ->
      truthy (prop (Request.payload r) "reject_requires_reason") = false ->
      completes (resolve SERVER_SECRET st id humanId result reason now) id result)
  /\ (nullish result = false ->
      result <> VStr "approved" -> result <> VStr "rejected" ->
      resolve SERVER_SECRET st id humanId result reason now
      = (st,
         error_response 422 "invalid_result"
           ("Result must be " ++ quoted "approved" ++ " or " ++ quoted "rejected"),
         []))
  /\ (nullish result = true ->
      resolve SERVER_SECRET st id humanId result reason now
      = (st, error_response 400 "missing_result" "Result is required", [])).
Proof.
  intros Hget Hact Hs.
  destruct (resolve_open_guards r result Hs) as [E1 [E2 E3]].
  assert (Hv : forall s, s = "approved" \/ s = "rejected" ->
                         validateResult r (VStr s) = Ret None).
  { intros s [-> | ->]; unfold validateResult; rewrite Hact; reflexivity. }
  split; [|split; [|split]].
  - intros ->.
    apply (resolve_completes_request SERVER_SECRET st id r); auto.
    rewrite Hact. reflexivity.
  - intros -> Hflag.
    apply (resolve_completes_request SERVER_SECRET st id r); auto.
    rewrite Hact, Hflag. reflexivity.
  - intros Hn Ha Hr.
    assert (Hinc : includes [VStr "approved"; VStr "rejected"] result = false).
    { destruct (includes [VStr "approved"; VStr "rejected"] result) eqn:E;
        [|reflexivity].
      apply includes_In in E. simpl in E. destruct E as [E|[E|[]]]; congruence. }
    unfold resolve. rewrite Hget, E1, E2, E3, Hn.
    unfold validateResult. rewrite Hact, Hinc. reflexivity.
  - intros Hn. unfold resolve. now rewrite Hget, E1, E2, E3, Hn.
Qed.

(** Instance: the expense approved without a reason, although a rejection
    would need one. *)
Lemma approve_resolution_expense :
  completes
    (resolve dev_secret (Scenario.state_after Scenario.approve_pending)
       Scenario.id "dev-human-token" (VStr "approved") VUndefined
       (Scenario.t0 + 500))
    Scenario.id (VStr "approved").
Proof.
  assert (E : assoc Scenario.id
                (requests (Scenario.state_after Scenario.approve_pending))
              = Some Scenario.pending_approve)
    by (vm_compute; reflexivity).
  refine (proj1 (approve_resolution dev_secret _ Scenario.id _
                   "dev-human-token" (VStr "approved") VUndefined
                   (Scenario.t0 + 500) E _ _) _).
  - reflexivity.
  - now left.
  - reflexivity.
Defined.

(** X10. The receipt the resolve handler writes for a request that had
    none carries the clock reading as [completed_at] and, as
    [duration_seconds], the time since [created_at] rounded to the nearest
    second, halves upwards (not rounded down): it is within half a second
    of the elapsed time, and not negative when the clock has not gone
    backwards. *)
Theorem resolve_duration_is_rounded
  (SERVER_SECRET : string) (st : state) (id humanId : string)
  (result reason : value) (now : Z) (r : Request.t) (rc : Receipt.t) :
  assoc id (requests st) = Some r ->
  Request.receipt r = None ->
  receipt_of (fst (fst (resolve SERVER_SECRET st id humanId result reason now))) id
  = Some rc ->
  Receipt.completed_at rc = now
  /\ 1000 * Receipt.duration_seconds rc - 500 <= now - Request.created_at r
  /\ now - Request.created_at r < 1000 * Receipt.duration_seconds rc + 500
  /\ (Request.created_at r <= now -> 0 <= Receipt.duration_seconds rc).
Proof.
  intros Hget Hnone. unfold resolve. rewrite Hget.
  repeat (break_if || break_match); cbn [fst snd];
    try (unfold receipt_of; rewrite Hget, Hnone; discriminate).
  unfold receipt_of, with_requests. cbn [requests].
  rewrite assoc_map_set_same. cbn [Request.receipt Request.set_receipt].
  intros [= <-].
  cbn [Receipt.completed_at Receipt.duration_seconds]. unfold round_seconds.
  split; [reflexivity|].
  split; [|split; [|intros Hle]]; Z.to_euclidean_division_equations; lia.
Qed.

(** Instance: resolved 4.2 seconds after its creation, the request reports
    4 seconds. *)
Lemma resolve_duration_is_rounded_resolved :
  exists rc,
    receipt_of (Scenario.state_after Scenario.resolved) Scenario.id = Some rc
    /\ Receipt.duration_seconds rc = 4
    /\ 1000 * Receipt.duration_seconds rc - 500
       <= Scenario.t0 + 4200 - Scenario.t0.
Proof.
  assert (E : assoc Scenario.id
                (requests
                   (Scenario.state_after
                      [Create (Scenario.decide_body None VUndefined VUndefined)
                         Scenario.uuid Scenario.t0 Scenario.t0]))
              = Some (Request.mk Scenario.id (VStr "DECIDE") (VStr "owner")
                        (VStr "normal") 0 (VStr "pause") (VStr "unknown") VNull
                        (VObj []) (Scenario.decide_payload VUndefined)
                        "pending" Scenario.t0 None None))
    by (vm_compute; reflexivity).
  assert (R : receipt_of
                (fst (fst (resolve dev_secret
                             (Scenario.state_after
                                [Create (Scenario.decide_body None VUndefined
                                           VUndefined)
                                   Scenario.uuid Scenario.t0 Scenario.t0])
                             Scenario.id "dev-human-token" (VStr "Approve")
                             VUndefined (Scenario.t0 + 4200))))
                Scenario.id
              = Request.receipt Scenario.resolved_request)
    by (vm_compute; reflexivity).
  exists (Receipt.mk Scenario.id "completed" (VStr "Approve") VNull
            "dev-human-token" (Scenario.t0 + 4200) 4
            (generateEvidenceHash dev_secret Scenario.id (VStr "Approve")
               (toISOString (Scenario.t0 + 4200)))).
  split; [vm_compute; reflexivity|]. split; [reflexivity|].
  exact (proj1 (proj2 (resolve_duration_is_rounded dev_secret _ Scenario.id
                         "dev-human-token" (VStr "Approve") VUndefined
                         (Scenario.t0 + 4200) _ _ E eq_refl R))).
Defined.

(* ------------------------------------------------------------------------- *)
(** ** The order of the inbox *)
(* ------------------------------------------------------------------------- *)

(** The sort puts its input in order when, on the elements at hand, the
    comparator is total and transitive. *)
Section SortSorted.
Context {A : Type} (cmp : A -> A -> number) (G : A -> Prop).

Hypothesis before_total :
  forall x y, G x -> G y -> before cmp x y = false -> before cmp y x = true.
Hypothesis before_trans :
  forall x y z, G x -> G y -> G z ->
    before cmp x y = true -> before cmp y z = true -> before cmp x z = true.

Lemma insert_Forall (P : A -> Prop) (x : A) (l : list A) :
  P x -> Forall P l -> Forall P (insert cmp x l).
Proof.
  intros Hx Hl.
  apply (Permutation_Forall (Permutation_sym (insert_perm cmp x l))).
  now constructor.
Qed.

Lemma insert_sorted (x : A) (l : list A) :
  G x -> Forall G l ->
  StronglySorted (fun a b => before cmp a b = true) l ->
  StronglySorted (fun a b => before cmp a b = true) (insert cmp x l).
Proof.
  intros Hx Hl Hs. induction Hs as [|y l Hs IH Hy]; simpl.
  - constructor; constructor.
  - inversion Hl as [|? ? Gy Gl]; subst.
    destruct (before cmp x y) eqn:E.
    + constructor; [now constructor|].
      constructor; [assumption|].
      rewrite Forall_forall in *. intros z Hz.
      apply (before_trans x y z); auto.
    + constructor; [now apply IH|].
      apply insert_Forall; [|assumption].
      now apply before_total.
Qed.

Lemma sort_sorted (l : list A) :
  Forall G l ->
  StronglySorted (fun a b => before cmp a b = true) (sort cmp l).
Proof.
  induction l as [|x l IH]; intros Hl; simpl; [constructor|].
  inversion Hl; subst.
  apply insert_sorted; auto.
  apply (Permutation_Forall (Permutation_sym (sort_perm cmp l))). assumption.
Qed.
End SortSorted.

Lemma StronglySorted_weaken {A : Type} (R R' : A -> A -> Prop) (G : A -> Prop)
  (l : list A) :
  (forall x y, G x -> G y -> R x y -> R' x y) ->
  Forall G l -> StronglySorted R l -> StronglySorted R' l.
Proof.
  intros HR Hl Hs. induction Hs as [|x l Hs IH Hx]; [constructor|].
  inversion Hl; subst. constructor; [auto|].
  rewrite Forall_forall in *. intros y Hy. apply HR; auto.
Qed.



Lemma values_Forall (P : Request.t -> Prop) (st : state) :
  (forall id r, In (id, r) (requests st) -> P r) ->
  Forall P (map_values (requests st)).
Proof.
  intros H. apply Forall_forall. intros r Hin.
  unfold map_values in Hin. apply in_map_iff in Hin as [[id r'] [<- Hin]].
  eapply H; eassumption.
Qed.








Lemma filter_all {A : Type} (f : A -> bool) (l : list A) :
  Forall (fun x => f x = true) l -> filter f l = l.
Proof.
  induction 1 as [|x l Hx Hl IH]; simpl; [reflexivity|].
  now rewrite Hx, IH.
Qed.

(** X13. In every state the server can reach, the inbox asked without a
    [status] returns pending requests only, the status [assigned] being
    never written, so that its [unresolved] equals its [total]. *)
Theorem default_inbox_is_all_pending
  (SERVER_SECRET PORT : string) (ops : list op) (q_priority q_action : value) :
  Forall (fun r => Request.status r = "pending")
    (inbox_results (run SERVER_SECRET PORT initial ops)
       VUndefined q_priority q_action)
  /\ prop (body (inbox (run SERVER_SECRET PORT initial ops)
                   VUndefined q_priority q_action)) "unresolved"
     = prop (body (inbox (run SERVER_SECRET PORT initial ops)
                     VUndefined q_priority q_action)) "total".
Proof.
  assert (Hall : Forall (fun r => Request.status r = "pending")
                   (inbox_results (run SERVER_SECRET PORT initial ops)
                      VUndefined q_priority q_action)).
  { apply Forall_forall. intros r Hin.
    apply (Permutation_in _
             (inbox_results_perm _ "pending" q_priority q_action)) in Hin.
    apply filter_In in Hin as [Hin Hk].
    unfold map_values in Hin. apply in_map_iff in Hin as [[id r'] [<- Hin]].
    pose proof (reachable_statuses SERVER_SECRET PORT ops id r' Hin) as Hw.
    unfold inbox_keeps in Hk.
    apply andb_true_iff in Hk as [Hk _]. apply andb_true_iff in Hk as [Hk _].
    apply orb_true_iff in Hk as [Hk|Hk]; apply String.eqb_eq in Hk;
      [assumption|].
    simpl in *. rewrite Hk in Hw.
    destruct Hw as [E|[E|[E|[E|[]]]]]; discriminate. }
  split; [assumption|].
  unfold inbox. simpl. unfold count_pending.
  rewrite filter_all; [reflexivity|].
  eapply Forall_impl; [|exact Hall].
  intros r Hr. simpl in Hr. rewrite Hr. reflexivity.
Qed.

(* ------------------------------------------------------------------------- *)
(** ** The agent's listing *)
(* ------------------------------------------------------------------------- *)

Lemma filter_if {A : Type} (c : bool) (f : A -> bool) (l : list A) :
  (if c then filter f l else l) = filter (fun x => if c then f x else true) l.
Proof.
  destruct c; [reflexivity|].
  symmetry. apply filter_all. now apply Forall_forall.
Qed.

Lemma list_results_eq (st : state) (q_agent_id q_project_id q_status : value)
  (limit : number) :
  list_results st q_agent_id q_project_id q_status limit
  = slice_to
      (sort newest_first
         (filter (list_keeps q_agent_id q_project_id q_status)
            (map_values (requests st))))
      limit.
Proof.
  unfold list_results. f_equal. f_equal.
  rewrite !filter_if, !filter_filter. apply filter_ext. intros r.
  unfold list_keeps. now rewrite andb_assoc.
Qed.

Lemma slice_to_prefix {A : Type} (l : list A) (limit : number) :
  exists rest, l = (slice_to l limit ++ rest)%list.
Proof.
  unfold slice_to. destruct limit as [e|]; [|now exists l].
  destruct (e <? 0); eexists; symmetry; apply firstn_skipn.
Qed.

Lemma StronglySorted_prefix {A : Type} (R : A -> A -> Prop) (l1 l2 : list A) :
  StronglySorted R (l1 ++ l2)%list -> StronglySorted R l1.
Proof.
  induction l1 as [|x l1 IH]; simpl; intros Hs; [constructor|].
  inversion Hs; subst. constructor; [auto|].
  rewrite Forall_forall in *. intros y Hy. apply H2. apply in_or_app. now left.
Qed.

(** X14. The agent's listing returns a page: the first [limit] of the
    stored requests that pass the [agent_id], [project_id] and [status]
    filters given, taken from the newest. For a [limit] that is a number
    and not negative the page holds that many requests or all the matches
    if there are fewer; for a [limit] that does not parse it is empty. The
    [total] of the answer is the size of the page, not the number of
    matches. *)
Theorem list_requests_is_a_page
  (st : state) (q_agent_id q_project_id q_status : value) (limit : number) :
  (exists rest,
     sort newest_first
       (filter (list_keeps q_agent_id q_project_id q_status)
          (map_values (requests st)))
     = (list_results st q_agent_id q_project_id q_status limit ++ rest)%list)
  /\ (forall n, limit = Num n -> 0 <= n ->
      length (list_results st q_agent_id q_project_id q_status limit)
      = Nat.min (Z.to_nat n)
          (length (filter (list_keeps q_agent_id q_project_id q_status)
                     (map_values (requests st)))))
  /\ (limit = NaN ->
      list_results st q_agent_id q_project_id q_status limit = [])
  /\ (forall r,
        In r (list_results st q_agent_id q_project_id q_status limit) ->
        In r (map_values (requests st))
        /\ list_keeps q_agent_id q_project_id q_status r = true)
  /\ prop (body (list_requests st q_agent_id q_project_id q_status limit)) "total"
     = VNum (Z.of_nat
               (length (list_results st q_agent_id q_project_id q_status limit))).
Proof.
  rewrite list_results_eq.
  set (matches := filter (list_keeps q_agent_id q_project_id q_status)
                    (map_values (requests st))).
  split; [apply slice_to_prefix|].
  split; [|split; [|split]].
  - intros n -> Hn. unfold slice_to.
    apply Z.ltb_ge in Hn. rewrite Hn, length_firstn.
    now rewrite (Permutation_length (sort_perm newest_first matches)).
  - intros ->. reflexivity.
  - intros r Hin.
    destruct (slice_to_prefix (sort newest_first matches) limit) as [rest E].
    assert (Hs : In r (sort newest_first matches))
      by (rewrite E; apply in_or_app; now left).
    apply (Permutation_in _ (sort_perm newest_first matches)) in Hs.
    unfold matches in Hs. now apply filter_In in Hs.
  - unfold list_requests. rewrite list_results_eq. reflexivity.
Qed.

(** X15. The page of the agent's listing is ordered by creation time, the
    newest request first. *)
Theorem list_requests_newest_first
  (st : state) (q_agent_id q_project_id q_status : value) (limit : number) :
  StronglySorted
    (fun a b => Request.created_at b <= Request.created_at a)
    (list_results st q_agent_id q_project_id q_status limit).
Proof.
  rewrite list_results_eq.
  set (matches := filter (list_keeps q_agent_id q_project_id q_status)
                    (map_values (requests st))).
  destruct (slice_to_prefix (sort newest_first matches) limit) as [rest E].
  apply (StronglySorted_prefix _ _ rest). rewrite <- E.
  apply (StronglySorted_weaken (fun a b => before newest_first a b = true)
           _ (fun _ => True)).
  - intros x y _ _ H. unfold before, newest_first in H.
    apply Z.leb_le in H. lia.
  - now apply Forall_forall.
  - apply (sort_sorted newest_first (fun _ => True)).
    + intros x y _ _ H. unfold before, newest_first in *.
      apply Z.leb_gt in H. apply Z.leb_le. lia.
    + intros x y z _ _ _ H1 H2. unfold before, newest_first in *.
      apply Z.leb_le in H1, H2. apply Z.leb_le. lia.
    + now apply Forall_forall.
Qed.

(* ------------------------------------------------------------------------- *)
(** ** The statistics *)
(* ------------------------------------------------------------------------- *)

Lemma count_status_cons (s : string) (r : Request.t) (all : list Request.t) :
  count_status s (r :: all)
  = (if (Request.status r =? s)%string then 1 else 0) + count_status s all.
Proof.
  unfold count_status. cbn [filter].
  destruct (Request.status r =? s)%string; cbn [length]; lia.
Qed.

Lemma count_partition (all : list Request.t) :
  Forall (fun r => In (Request.status r) written_statuses) all ->
  Z.of_nat (length all)
  = count_status "pending" all + count_status "completed" all
    + count_status "expired" all + count_status "cancelled" all
  /\ count_status "failed" all = 0.
Proof.
  induction 1 as [|r all Hr Hall [IH1 IH2]]; [now split|].
  rewrite !count_status_cons. cbn [length]. rewrite Nat2Z.inj_succ.
  simpl in Hr.
  repeat match goal with
         | |- context [(Request.status r =? ?l)%string] =>
             destruct (String.eqb_spec (Request.status r) l)
         end;
    destruct Hr as [E|[E|[E|[E|[]]]]]; try congruence; split; lia.
Qed.

(** X16. In every state the server can reach, the statistics report no
    failed request, their [total] is the sum of the pending, completed and
    expired requests they report and of the cancelled ones they do not, and
    the average duration is taken over the completed requests: its divisor
    is their number, or 1 when there is none. *)
Theorem stats_of_reachable_state
  (SERVER_SECRET PORT : string) (ops : list op) :
  Stats.failed (stats (run SERVER_SECRET PORT initial ops)) = 0
  /\ Stats.total (stats (run SERVER_SECRET PORT initial ops))
     = Stats.pending (stats (run SERVER_SECRET PORT initial ops))
       + Stats.completed (stats (run SERVER_SECRET PORT initial ops))
       + Stats.expired (stats (run SERVER_SECRET PORT initial ops))
       + count_status "cancelled"
           (map_values (requests (run SERVER_SECRET PORT initial ops)))
  /\ Stats.duration_count (stats (run SERVER_SECRET PORT initial ops))
     = Z.max 1 (Stats.completed (stats (run SERVER_SECRET PORT initial ops))).
Proof.
  set (st := run SERVER_SECRET PORT initial ops).
  assert (Hok : Forall request_ok (map_values (requests st)))
    by (apply values_Forall; apply reachable_request_ok).
  assert (Hst : Forall (fun r => In (Request.status r) written_statuses)
                  (map_values (requests st)))
    by (eapply Forall_impl; [|exact Hok]; intros r [H _]; exact H).
  destruct (count_partition _ Hst) as [Hsum Hfailed].
  split; [exact Hfailed|]. split; [exact Hsum|].
  unfold stats. cbn [Stats.duration_count Stats.completed]. unfold count_status.
  assert (E : filter has_receipt (map_values (requests st))
              = filter (fun r => (Request.status r =? "completed")%string)
                  (map_values (requests st))).
  { apply filter_ext_in. intros r Hin.
    rewrite Forall_forall in Hok. destruct (Hok r Hin) as [_ [H1 H2]].
    unfold has_receipt.
    destruct (Request.receipt r) eqn:Er.
    - symmetry. apply String.eqb_eq. apply H1. discriminate.
    - destruct (Request.status r =? "completed")%string eqn:Es; [|reflexivity].
      apply String.eqb_eq in Es. apply H2 in Es. congruence. }
  rewrite E.
  destruct (Z.of_nat _ =? 0) eqn:Ez.
  - apply Z.eqb_eq in Ez. rewrite Ez. reflexivity.
  - apply Z.eqb_neq in Ez. lia.
Qed.

(* ------------------------------------------------------------------------- *)
(** ** The bearer tokens *)
(* ------------------------------------------------------------------------- *)

Lemma substring_all (s : string) : substring 0 (String.length s) s = s.
Proof. induction s as [|c s IH]; simpl; [reflexivity|now rewrite IH]. Qed.

Lemma prefix_split (p s : string) :
  prefix p s = true ->
  s = p ++ slice_from (String.length p) s.
Proof.
  unfold slice_from. revert s.
  induction p as [|a p IH]; intros s H; simpl.
  - now rewrite Nat.sub_0_r, substring_all.
  - destruct s as [|b s]; [discriminate|]. simpl in H.
    destruct (ascii_dec a b); [|discriminate]. subst. simpl.
    f_equal. now apply IH.
Qed.

Lemma slice_from_app (p t : string) :
  slice_from (String.length p) (p ++ t) = t.
Proof.
  unfold slice_from. induction p as [|a p IH]; simpl.
  - now rewrite Nat.sub_0_r, substring_all.
  - exact IH.
Qed.

Lemma prefix_app (p t : string) : prefix p (p ++ t) = true.
Proof.
  induction p as [|a p IH]; simpl; [now destruct t|].
  destruct (ascii_dec a a); [assumption|contradiction].
Qed.

Lemma has_In (keys : list string) (token : string) :
  has keys token = true <-> In token keys.
Proof.
  unfold has. rewrite existsb_exists. split.
  - intros [k [Hin E]]. apply String.eqb_eq in E. now subst.
  - intros Hin. exists token. split; [assumption|apply String.eqb_refl].
Qed.

Lemma require_bearer_spec (keys : list string) (invalid : string)
  (authorization : option string) (token : string) :
  (require_bearer keys invalid authorization = Granted token
   <-> authorization = Some ("Bearer " ++ token) /\ In token keys)
  /\ (forall r, require_bearer keys invalid authorization = Denied r ->
                http_status r = 401).
Proof.
  unfold require_bearer. split.
  - split.
    + destruct authorization as [auth|]; [|discriminate].
      destruct (auth =? "")%string; [discriminate|].
      destruct (prefix "Bearer " auth) eqn:Ep; [|discriminate]. simpl.
      destruct (has keys (slice_from 7 auth)) eqn:Eh; [|discriminate]. simpl.
      intros [= <-]. apply has_In in Eh. split; [|assumption].
      f_equal. apply (prefix_split "Bearer " auth Ep).
    + intros [-> Hin].
      change ("Bearer " ++ token =? "")%string with false.
      rewrite (prefix_app "Bearer " token).
      change (slice_from 7 ("Bearer " ++ token))
        with (slice_from (String.length "Bearer ") ("Bearer " ++ token)).
      rewrite slice_from_app. apply has_In in Hin. now rewrite Hin.
  - intros r.
    destruct authorization as [auth|]; [|now intros [= <-]].
    destruct ((auth =? "")%string || negb (prefix "Bearer " auth));
      [now intros [= <-]|].
    destruct (negb (has keys (slice_from 7 auth))); [now intros [= <-]|].
    discriminate.
Qed.

(** X17. Both middlewares let a call through exactly when its
    [Authorization] header is the word [Bearer], one space, and a token of
    their own set (agent keys for the one, human tokens for the other), and
    hand that token on; any other call is answered 401. A key of the other
    set is of no use unless it is in both. *)
Theorem bearer_token_is_required
  (AGENT_API_KEYS HUMAN_TOKENS : list string) (authorization : option string)
  (token : string) :
  (requireAgentAuth AGENT_API_KEYS authorization = Granted token
   <-> authorization = Some ("Bearer " ++ token) /\ In token AGENT_API_KEYS)
  /\ (requireHumanAuth HUMAN_TOKENS authorization = Granted token
      <-> authorization = Some ("Bearer " ++ token) /\ In token HUMAN_TOKENS)
  /\ (forall r, requireAgentAuth AGENT_API_KEYS authorization = Denied r ->
                http_status r = 401)
  /\ (forall r, requireHumanAuth HUMAN_TOKENS authorization = Denied r ->
                http_status r = 401).
Proof.
  unfold requireAgentAuth, requireHumanAuth.
  destruct (require_bearer_spec AGENT_API_KEYS "Invalid agent API key"
              authorization token) as [Ha Da].
  destruct (require_bearer_spec HUMAN_TOKENS "Invalid human token"
              authorization token) as [Hh Dh].
  split; [exact Ha|]. split; [exact Hh|]. split; assumption.
Qed.

(* ------------------------------------------------------------------------- *)
(** ** Subscriptions *)
(* ------------------------------------------------------------------------- *)

Section Keys.
Context {A : Type}.
Implicit Types (m : list (string * A)) (k : string).

Lemma assoc_None k m : assoc k m = None <-> ~ In k (map fst m).
Proof.
  induction m as [|[k' a] m IH]; simpl; [tauto|].
  destruct (k' =? k)%string eqn:E.
  - apply String.eqb_eq in E. split; [discriminate|]. intros H. exfalso. auto.
  - apply String.eqb_neq in E. rewrite IH. tauto.
Qed.

Lemma keys_map_set k (a : A) m x :
  In x (map fst (map_set k a m)) -> x = k \/ In x (map fst m).
Proof.
  induction m as [|[k' a'] m IH]; simpl.
  - intros [H|[]]. now left.
  - destruct (k' =? k)%string eqn:E; simpl.
    + apply String.eqb_eq in E. subst. tauto.
    + intros [H|H]; [tauto|]. destruct (IH H); tauto.
Qed.

Lemma NoDup_map_set k (a : A) m :
  NoDup (map fst m) -> NoDup (map fst (map_set k a m)).
Proof.
  induction m as [|[k' a'] m IH]; simpl; intros Hm.
  - constructor; [tauto|constructor].
  - inversion Hm as [|? ? Hnot Hrest]; subst.
    destruct (k' =? k)%string eqn:E; simpl.
    + apply String.eqb_eq in E. subst. now constructor.
    + apply String.eqb_neq in E. constructor; [|now apply IH].
      intros H. apply keys_map_set in H as [H|H]; [congruence|contradiction].
Qed.

Lemma keys_map_delete k m x :
  In x (map fst (map_delete k m)) -> In x (map fst m).
Proof.
  induction m as [|[k' a'] m IH]; simpl; [tauto|].
  destruct (k' =? k)%string; simpl; [tauto|].
  intros [H|H]; [tauto|]. right. now apply IH.
Qed.

Lemma NoDup_map_delete k m :
  NoDup (map fst m) -> NoDup (map fst (map_delete k m)).
Proof.
  induction m as [|[k' a'] m IH]; simpl; intros Hm; [constructor|].
  inversion Hm as [|? ? Hnot Hrest]; subst.
  destruct (k' =? k)%string; simpl; [assumption|].
  constructor; [|now apply IH].
  intros H. apply Hnot. now apply keys_map_delete in H.
Qed.

Lemma assoc_map_delete k m :
  NoDup (map fst m) -> assoc k (map_delete k m) = None.
Proof.
  induction m as [|[k' a'] m IH]; simpl; intros Hm; [reflexivity|].
  inversion Hm as [|? ? Hnot Hrest]; subst.
  destruct (k' =? k)%string eqn:E; simpl.
  - apply String.eqb_eq in E. subst. now apply assoc_None.
  - rewrite E. now apply IH.
Qed.
End Keys.

Lemma ws_connection_subscribes (st : state) (sock : ws) (id : string) :
  id <> "" ->
  wsSubscriptions (fst (ws_connection st sock (Some id)))
  = map_set id
      (let subs := match assoc id (wsSubscriptions st) with
                   | Some l => l
                   | None => []
                   end in
       if existsb (fun s => Nat.eqb (ws_handle s) (ws_handle sock)) subs
       then subs else (subs ++ [sock])%list)
      (wsSubscriptions st).
Proof.
  intros Hne. apply String.eqb_neq in Hne.
  unfold ws_connection. rewrite Hne. repeat break_match; reflexivity.
Qed.

Lemma create_subscriptions (PORT : string) (st : state) (b : Body.t)
  (uuid : string) (now date_now : Z) :
  wsSubscriptions (fst (create PORT st b uuid now date_now)) = wsSubscriptions st.
Proof. unfold create. repeat (break_if || break_match); reflexivity. Qed.

Lemma cancel_subscriptions (st : state) (id : string) :
  wsSubscriptions (fst (fst (cancel st id))) = wsSubscriptions st.
Proof. unfold cancel. repeat (break_if || break_match); reflexivity. Qed.

Lemma resolve_subscriptions (SERVER_SECRET : string) (st : state)
  (id humanId : string) (result reason : value) (now : Z) :
  wsSubscriptions (fst (fst (resolve SERVER_SECRET st id humanId result reason now)))
  = wsSubscriptions st.
Proof. unfold resolve. repeat (break_if || break_match); reflexivity. Qed.

Lemma timeout_callback_subscriptions (SERVER_SECRET : string) (st : state)
  (tm : timer) (now1 now2 : Z) :
  wsSubscriptions (fst (timeout_callback SERVER_SECRET st tm now1 now2))
  = wsSubscriptions st.
Proof.
  unfold timeout_callback.
  destruct (assoc (t_requestId tm) (requests st)); [|reflexivity].
  destruct (Request.status _ =? "pending")%string; reflexivity.
Qed.

(** The subscriptions hold one entry for a request id at most. *)
Lemma step_subscriptions_nodup (SERVER_SECRET PORT : string) (st : state) (o : op) :
  NoDup (map fst (wsSubscriptions st)) ->
  NoDup (map fst (wsSubscriptions (fst (fst (step SERVER_SECRET PORT st o))))).
Proof.
  intros Hst.
  destruct o as [b u now date_now|i|i|qs qp qa|i humanId result reason now
                |n now1 now2|sock requestId|handle requestId|handle rs];
    unfold step.
  - pose proof (create_subscriptions PORT st b u now date_now) as H.
    destruct (create PORT st b u now date_now). simpl in *. now rewrite H.
  - exact Hst.
  - pose proof (cancel_subscriptions st i) as H.
    destruct (cancel st i) as [[? ?] ?]. simpl in *. now rewrite H.
  - exact Hst.
  - pose proof (resolve_subscriptions SERVER_SECRET st i humanId result reason now)
      as H.
    destruct (resolve SERVER_SECRET st i humanId result reason now) as [[? ?] ?].
    simpl in *. now rewrite H.
  - unfold fire. destruct (nth_error (timers st) n) as [tm|]; [|exact Hst].
    match goal with
    | |- context [timeout_callback _ ?s _ _ _] =>
        pose proof (timeout_callback_subscriptions SERVER_SECRET s tm now1 now2)
          as H;
        destruct (timeout_callback SERVER_SECRET s tm now1 now2)
    end.
    simpl in *. now rewrite H.
  - destruct requestId as [id|]; [|exact Hst].
    destruct (String.eqb_spec id "") as [->|Hne]; [exact Hst|].
    pose proof (ws_connection_subscribes st sock id Hne) as H.
    destruct (ws_connection st sock (Some id)). simpl in *. rewrite H.
    now apply NoDup_map_set.
  - cbn [fst]. unfold ws_close.
    destruct (assoc requestId (wsSubscriptions st)) as [subs|]; [|exact Hst].
    cbn [wsSubscriptions].
    destruct (filter _ subs);
      [now apply NoDup_map_delete|now apply NoDup_map_set].
  - cbn [fst]. unfold ws_ready_state. cbn [wsSubscriptions].
    rewrite map_map. cbn [fst]. exact Hst.
Qed.

Lemma reachable_subscriptions_nodup (SERVER_SECRET PORT : string) (ops : list op) :
  NoDup (map fst (wsSubscriptions (run SERVER_SECRET PORT initial ops))).
Proof.
  assert (H : forall st, NoDup (map fst (wsSubscriptions st)) ->
                         NoDup (map fst (wsSubscriptions
                                           (run SERVER_SECRET PORT st ops)))).
  { induction ops as [|o ops IH]; intros st Hst; simpl; [assumption|].
    apply IH. now apply step_subscriptions_nodup. }
  apply H. constructor.
Qed.

(** X18. A socket that connects for a request id, in any state the server
    can reach, is sent at once the [completed] event with the stored
    receipt when the request is completed, and nothing when the request is
    pending, cancelled, expired or unknown. *)
Theorem late_subscriber_gets_receipt_iff_completed
  (SERVER_SECRET PORT : string) (ops : list op) (sock : ws) (id : string) :
  id <> "" ->
  (forall r,
     assoc id (requests (run SERVER_SECRET PORT initial ops)) = Some r ->
     Request.status r = "completed" ->
     exists rc,
       Request.receipt r = Some rc
       /\ snd (ws_connection (run SERVER_SECRET PORT initial ops) sock (Some id))
          = [(ws_handle sock,
              JSON_stringify (VObj [ ("event", VStr "completed");
                                     ("receipt", Receipt.to_value rc) ]))])
  /\ (forall r,
        assoc id (requests (run SERVER_SECRET PORT initial ops)) = Some r ->
        Request.status r <> "completed" ->
        snd (ws_connection (run SERVER_SECRET PORT initial ops) sock (Some id))
        = [])
  /\ (assoc id (requests (run SERVER_SECRET PORT initial ops)) = None ->
      snd (ws_connection (run SERVER_SECRET PORT initial ops) sock (Some id))
      = []).
Proof.
  intros Hne. apply String.eqb_neq in Hne.
  split; [|split].
  - intros r Hget Hs.
    destruct (reachable_request_ok SERVER_SECRET PORT ops id r
                (assoc_In _ _ _ Hget)) as [_ [_ H2]].
    destruct (Request.receipt r) as [rc|] eqn:Er; [|now apply H2 in Hs].
    exists rc. split; [reflexivity|].
    unfold ws_connection. now rewrite Hne, Hget, Er.
  - intros r Hget Hs.
    destruct (reachable_request_ok SERVER_SECRET PORT ops id r
                (assoc_In _ _ _ Hget)) as [_ [H1 _]].
    unfold ws_connection. rewrite Hne, Hget.
    destruct (Request.receipt r) eqn:Er; [|reflexivity].
    exfalso. apply Hs, H1. discriminate.
  - intros Hget. unfold ws_connection. now rewrite Hne, Hget.
Qed.

(** Instance: a socket connecting for the request a human has resolved. *)
Lemma late_subscriber_gets_receipt_iff_completed_resolved :
  exists rc,
    Request.receipt Scenario.resolved_request = Some rc
    /\ snd (ws_connection (run dev_secret dev_port initial Scenario.resolved)
              (mkWs 3 1) (Some Scenario.id))
       = [(ws_handle (mkWs 3 1),
           JSON_stringify (VObj [ ("event", VStr "completed");
                                  ("receipt", Receipt.to_value rc) ]))].
Proof.
  assert (E : assoc Scenario.id
                (requests (run dev_secret dev_port initial Scenario.resolved))
              = Some Scenario.resolved_request)
    by (vm_compute; reflexivity).
  refine (proj1 (late_subscriber_gets_receipt_iff_completed dev_secret dev_port
                   Scenario.resolved (mkWs 3 1) Scenario.id _)
            Scenario.resolved_request E eq_refl).
  discriminate.
Defined.

(** X19. In any state the server can reach, an open socket that connects
    for a request id, no socket of its handle being subscribed to that id
    yet, receives the events published for that id from then on; once its
    [close] handler has run, it receives none. *)
Theorem subscribe_then_close
  (SERVER_SECRET PORT : string) (ops : list op) (sock : ws) (id : string)
  (event : value) :
  id <> "" ->
  readyState sock = 1 ->
  (forall subs s,
     assoc id (wsSubscriptions (run SERVER_SECRET PORT initial ops)) = Some subs ->
     In s subs -> ws_handle s <> ws_handle sock) ->
  In (ws_handle sock, JSON_stringify event)
    (notifySubscribers
       (fst (ws_connection (run SERVER_SECRET PORT initial ops) sock (Some id)))
       id event)
  /\ forall message,
       ~ In (ws_handle sock, message)
           (notifySubscribers
              (ws_close
                 (fst (ws_connection (run SERVER_SECRET PORT initial ops)
                         sock (Some id)))
                 (ws_handle sock) id)
              id event).
Proof.
  intros Hne Hopen Hfresh.
  set (st := run SERVER_SECRET PORT initial ops) in *.
  pose proof (reachable_subscriptions_nodup SERVER_SECRET PORT ops) as Hnd.
  fold st in Hnd.
  pose proof (ws_connection_subscribes st sock id Hne) as Hsub.
  set (st1 := fst (ws_connection st sock (Some id))) in *.
  assert (Hex : existsb (fun s => Nat.eqb (ws_handle s) (ws_handle sock))
                  match assoc id (wsSubscriptions st) with
                  | Some l => l
                  | None => []
                  end = false).
  { destruct (assoc id (wsSubscriptions st)) as [subs|] eqn:Es; [|reflexivity].
    destruct (existsb _ subs) eqn:Ex; [|reflexivity].
    apply existsb_exists in Ex as [s [Hin Heq]].
    apply Nat.eqb_eq in Heq. exfalso. exact (Hfresh subs s eq_refl Hin Heq). }
  cbv zeta in Hsub. rewrite Hex in Hsub.
  split.
  - unfold notifySubscribers. rewrite Hsub, assoc_map_set_same.
    apply in_map_iff. exists sock. split; [reflexivity|].
    apply filter_In. split.
    + apply in_or_app. right. now left.
    + now apply Z.eqb_eq.
  - intros message Hin.
    assert (Hnd1 : NoDup (map fst (wsSubscriptions st1)))
      by (rewrite Hsub; now apply NoDup_map_set).
    unfold notifySubscribers, ws_close in Hin.
    rewrite Hsub in Hin at 1. rewrite assoc_map_set_same in Hin.
    cbn [wsSubscriptions] in Hin.
    match type of Hin with
    | context [filter ?f ?l] =>
        destruct (filter f l) as [|s0 rest] eqn:Ef
    end.
    + rewrite assoc_map_delete in Hin by assumption. exact Hin.
    + rewrite assoc_map_set_same in Hin.
      apply in_map_iff in Hin as [s [Heq Hs]].
      apply filter_In in Hs as [Hs _]. rewrite <- Ef in Hs.
      apply filter_In in Hs as [_ Hs].
      injection Heq as Heq _. rewrite Heq, Nat.eqb_refl in Hs. discriminate.
Qed.

(** Instance: the first subscriber of a request in the empty store. *)
Lemma subscribe_then_close_first :
  In (ws_handle (mkWs 3 1),
      JSON_stringify (VObj [("event", VStr "cancelled")]))
    (notifySubscribers
       (fst (ws_connection (run dev_secret dev_port initial []) (mkWs 3 1)
               (Some Scenario.id)))
       Scenario.id (VObj [("event", VStr "cancelled")])).
Proof.
  refine (proj1 (subscribe_then_close dev_secret dev_port [] (mkWs 3 1)
                   Scenario.id (VObj [("event", VStr "cancelled")]) _ _ _)).
  - discriminate.
  - reflexivity.
  - simpl. discriminate.
Defined.

(* ------------------------------------------------------------------------- *)
(** ** Request ids *)
(* ------------------------------------------------------------------------- *)

Lemma no_dash_strip (s : string) : no_dash (strip_dashes s) = true.
Proof.
  induction s as [|c s IH]; simpl; [reflexivity|].
  destruct (c =? "-")%char eqn:E; [assumption|].
  simpl. now rewrite E.
Qed.

Lemma no_dash_substring (n : nat) (s : string) :
  no_dash s = true -> no_dash (substring 0 n s) = true.
Proof.
  revert s. induction n as [|n IH]; intros s H.
  - destruct s; reflexivity.
  - destruct s as [|c s]; [reflexivity|]. simpl in *.
    apply andb_true_iff in H as [Hc Hs]. rewrite Hc. now apply IH.
Qed.

Lemma length_substring (n : nat) (s : string) :
  String.length (substring 0 n s) = Nat.min n (String.length s).
Proof.
  revert s. induction n as [|n IH]; intros s.
  - destruct s; reflexivity.
  - destruct s as [|c s]; [reflexivity|]. simpl. now rewrite IH.
Qed.

(** X20. A request id is [hxp_] followed by the first twelve characters
    of the uuid that are no dash (fewer if the uuid has fewer): it holds
    no dash after the prefix, is at most sixteen characters long, and
    exactly sixteen for a uuid with twelve characters or more besides its
    dashes. *)
Theorem request_id_format (uuid : string) :
  exists rest,
    make_request_id uuid = "hxp_" ++ rest
    /\ no_dash rest = true
    /\ (String.length rest <= 12)%nat
    /\ ((12 <= String.length (strip_dashes uuid))%nat ->
        String.length (make_request_id uuid) = 16%nat).
Proof.
  exists (substring 0 12 (strip_dashes uuid)).
  split; [reflexivity|]. split; [|split].
  - apply no_dash_substring, no_dash_strip.
  - rewrite length_substring. apply Nat.le_min_l.
  - intros H. unfold make_request_id.
    change (String.length ("hxp_" ++ substring 0 12 (strip_dashes uuid)))
      with (4 + String.length (substring 0 12 (strip_dashes uuid)))%nat.
    rewrite length_substring, Nat.min_l by assumption. reflexivity.
Qed.

Lemma map_set_absent {A : Type} (k : string) (a : A) (m : list (string * A)) :
  assoc k m = None -> map_set k a m = (m ++ [(k, a)])%list.
Proof.
  induction m as [|[k' a'] m IH]; simpl; [reflexivity|].
  destruct (k' =? k)%string; [discriminate|].
  intros H. now rewrite IH.
Qed.

Lemma map_set_length {A : Type} (k : string) (a old : A) (m : list (string * A)) :
  assoc k m = Some old -> length (map_set k a m) = length m.
Proof.
  induction m as [|[k' a'] m IH]; simpl; [discriminate|].
  destruct (k' =? k)%string; [reflexivity|].
  intros H. simpl. now rewrite IH.
Qed.

(** X21. A create that answers 201 does not look whether its id is in
    use. When it is not, the request is added after the stored ones. When
    it is, the stored request is replaced in its place by the new pending
    one, whatever its status was, so that a receipt it carried is gone, and
    the number of stored requests stays. *)
Theorem create_replaces_the_request_of_its_id
  (PORT : string) (st : state) (b : Body.t) (uuid : string) (now date_now : Z) :
  http_status (snd (create PORT st b uuid now date_now)) = 201 ->
  exists r,
    Request.status r = "pending"
    /\ Request.receipt r = None
    /\ assoc (make_request_id uuid)
         (requests (fst (create PORT st b uuid now date_now))) = Some r
    /\ (assoc (make_request_id uuid) (requests st) = None ->
        requests (fst (create PORT st b uuid now date_now))
        = (requests st ++ [(make_request_id uuid, r)])%list)
    /\ (forall old,
          assoc (make_request_id uuid) (requests st) = Some old ->
          length (requests (fst (create PORT st b uuid now date_now)))
          = length (requests st)).
Proof.
  unfold create.
  destruct (negb (includes VALID_ACTIONS (Body.action b)));
    [simpl; discriminate|].
  destruct (negb (includes VALID_ROLES (default_to (VStr "owner") (Body.role b))));
    [simpl; discriminate|].
  destruct (validatePayload (Body.action b)
              (default_to (VObj []) (Body.payload b))) as [[e|]|];
    [simpl; discriminate| |simpl; discriminate].
  break_if; [simpl; discriminate|].
  intros _. cbn [fst requests].
  eexists. split; [|split; [|split; [|split]]].
  3: apply assoc_map_set_same.
  - reflexivity.
  - reflexivity.
  - apply map_set_absent.
  - intros old. apply map_set_length.
Qed.

(** Instance: the id of a request a human has resolved comes up again. *)
Lemma create_replaces_the_request_of_its_id_resolved :
  exists r,
    Request.status r = "pending"
    /\ Request.receipt r = None
    /\ assoc (make_request_id Scenario.uuid)
         (requests
            (fst (create dev_port (Scenario.state_after Scenario.resolved)
                    Scenario.approve_body Scenario.uuid
                    (Scenario.t0 + 9000) (Scenario.t0 + 9000))))
       = Some r.
Proof.
  assert (H : http_status
                (snd (create dev_port (Scenario.state_after Scenario.resolved)
                        Scenario.approve_body Scenario.uuid
                        (Scenario.t0 + 9000) (Scenario.t0 + 9000))) = 201)
    by (vm_compute; reflexivity).
  destruct (create_replaces_the_request_of_its_id dev_port
              (Scenario.state_after Scenario.resolved) Scenario.approve_body
              Scenario.uuid (Scenario.t0 + 9000) (Scenario.t0 + 9000) H)
    as [r [Hs [Hr [Hget _]]]].
  exists r. auto.
Defined.

(** X22. What a create that answers 201 has stored is what the status
    route then returns for the id of the answer: 200, the header
    [HXP-Status] at [pending], and a body with the payload as it was sent
    (an empty object if none was), the priority and the fallback sent or
    their defaults [normal] and [pause], and a [null] receipt. *)
Theorem create_then_get
  (PORT : string) (st : state) (b : Body.t) (uuid : string) (now date_now : Z) :
  http_status (snd (create PORT st b uuid now date_now)) = 201 ->
  prop (body (snd (create PORT st b uuid now date_now))) "request_id"
  = VStr (make_request_id uuid)
  /\ http_status
       (get_request (fst (create PORT st b uuid now date_now))
          (make_request_id uuid)) = 200
  /\ headers
       (get_request (fst (create PORT st b uuid now date_now))
          (make_request_id uuid))
     = [("HXP-Status", "pending"); ("HXP-Request-Id", make_request_id uuid)]
  /\ (forall k v,
        In (k, v)
          [ ("request_id", VStr (make_request_id uuid));
            ("action", Body.action b);
            ("payload", default_to (VObj []) (Body.payload b));
            ("priority", default_to (VStr "normal") (Body.priority b));
            ("fallback", default_to (VStr "pause") (Body.fallback b));
            ("status", VStr "pending");
            ("created_at", VStr (toISOString now));
            ("receipt", VNull) ] ->
        prop (body (get_request (fst (create PORT st b uuid now date_now))
                      (make_request_id uuid))) k = v).
Proof.
  unfold create.
  destruct (negb (includes VALID_ACTIONS (Body.action b)));
    [simpl; discriminate|].
  destruct (negb (includes VALID_ROLES (default_to (VStr "owner") (Body.role b))));
    [simpl; discriminate|].
  destruct (validatePayload (Body.action b)
              (default_to (VObj []) (Body.payload b))) as [[e|]|];
    [simpl; discriminate| |simpl; discriminate].
  break_if; [simpl; discriminate|].
  intros _. cbn [fst snd body]. unfold get_request. cbn [requests].
  rewrite assoc_map_set_same.
  split; [reflexivity|]. split; [reflexivity|]. split; [reflexivity|].
  intros k v Hin. cbn [body]. unfold Request.to_value.
  simpl in Hin.
  repeat (destruct Hin as [Hin|Hin]; [injection Hin as <- <-; reflexivity|]).
  contradiction.
Qed.

(** Instance: the DECIDE request with its default option. *)
Lemma create_then_get_decide :
  prop (body (get_request
                (fst (create dev_port initial
                        (Scenario.decide_body (Some 1) (VStr "default")
                           (VStr "Deny"))
                        Scenario.uuid Scenario.t0 Scenario.t0))
                (make_request_id Scenario.uuid))) "payload"
  = default_to (VObj [])
      (Body.payload
         (Scenario.decide_body (Some 1) (VStr "default") (VStr "Deny"))).
Proof.
  refine (proj2 (proj2 (proj2 (create_then_get dev_port initial
                                 (Scenario.decide_body (Some 1) (VStr "default")
                                    (VStr "Deny"))
                                 Scenario.uuid Scenario.t0 Scenario.t0 _)))
            "payload" _ _).
  - reflexivity.
  - simpl. auto.
Defined.

(* ------------------------------------------------------------------------- *)
(** ** The shape of an evidence hash *)
(* ------------------------------------------------------------------------- *)

Lemma round_length (st : list Z) (kw : Z * Z) :
  length (Sha256.round st kw) = length st.
Proof.
  unfold Sha256.round.
  destruct st as [|a [|b [|c [|d [|e [|f [|g [|h [|i st]]]]]]]]]; reflexivity.
Qed.

Lemma rounds_length (kws : list (Z * Z)) (st : list Z) :
  length (fold_left Sha256.round kws st) = length st.
Proof.
  revert st. induction kws as [|kw kws IH]; intros st; simpl; [reflexivity|].
  now rewrite IH, round_length.
Qed.

Lemma compress_length (h block : list Z) :
  length (Sha256.compress h block) = length h.
Proof.
  unfold Sha256.compress.
  rewrite length_map, length_combine, rounds_length. apply Nat.min_id.
Qed.

Lemma digest_words_length (msg : list Z) :
  length (Sha256.digest_words msg) = 8%nat.
Proof.
  unfold Sha256.digest_words.
  generalize (Sha256.blocks
                (length (Sha256.words (length (Sha256.pad msg)) (Sha256.pad msg)))
                (Sha256.words (length (Sha256.pad msg)) (Sha256.pad msg))).
  intros bs.
  assert (H : forall h, length (fold_left Sha256.compress bs h) = length h).
  { induction bs as [|blk bs IH]; intros h; simpl; [reflexivity|].
    now rewrite IH, compress_length. }
  now rewrite H.
Qed.

Lemma be_bytes_bytes (n : nat) (x : Z) :
  length (Sha256.be_bytes n x) = n
  /\ Forall (fun b => 0 <= b < 256) (Sha256.be_bytes n x).
Proof.
  unfold Sha256.be_bytes. split.
  - now rewrite length_map, length_rev, length_seq.
  - apply Forall_forall. intros b Hb.
    apply in_map_iff in Hb as [i [<- _]].
    change 255 with (Z.ones 8). rewrite Z.land_ones by lia.
    apply Z.mod_pos_bound. lia.
Qed.

Lemma digest_bytes (ws : list Z) :
  length (flat_map (Sha256.be_bytes 4) ws) = (4 * length ws)%nat
  /\ Forall (fun b => 0 <= b < 256) (flat_map (Sha256.be_bytes 4) ws).
Proof.
  induction ws as [|w ws [IH1 IH2]]; cbn [flat_map];
    [split; [reflexivity|constructor]|].
  destruct (be_bytes_bytes 4 w) as [H1 H2].
  split.
  - rewrite length_app, H1, IH1. cbn [length]. lia.
  - apply Forall_app. now split.
Qed.

Lemma hex_digit_ok (d : Z) :
  0 <= d < 16 -> all_hex (String (Sha256.hex_digit d) "") = true.
Proof.
  intros H.
  assert (C : d = 0 \/ d = 1 \/ d = 2 \/ d = 3 \/ d = 4 \/ d = 5 \/ d = 6
              \/ d = 7 \/ d = 8 \/ d = 9 \/ d = 10 \/ d = 11 \/ d = 12
              \/ d = 13 \/ d = 14 \/ d = 15) by lia.
  repeat (destruct C as [->|C]; [reflexivity|]). subst. reflexivity.
Qed.

Lemma all_hex_app (s t : string) : all_hex (s ++ t) = all_hex s && all_hex t.
Proof.
  induction s as [|c s IH]; simpl; [reflexivity|].
  now rewrite IH, andb_assoc.
Qed.

Lemma hex_byte_ok (b : Z) :
  0 <= b < 256 ->
  String.length (Sha256.hex_byte b) = 2%nat
  /\ all_hex (Sha256.hex_byte b) = true.
Proof.
  intros H. split; [reflexivity|].
  unfold Sha256.hex_byte.
  change (String (Sha256.hex_digit (Z.shiftr b 4))
            (String (Sha256.hex_digit (Z.land b 15)) ""))
    with (String (Sha256.hex_digit (Z.shiftr b 4)) ""
          ++ String (Sha256.hex_digit (Z.land b 15)) "").
  rewrite all_hex_app, !hex_digit_ok; [reflexivity| |].
  - change 15 with (Z.ones 4). rewrite Z.land_ones by lia.
    apply Z.mod_pos_bound. lia.
  - rewrite Z.shiftr_div_pow2 by lia. change (2 ^ 4) with 16.
    split; [apply Z.div_pos; lia|apply Z.div_lt_upper_bound; lia].
Qed.

Lemma length_append (s t : string) :
  String.length (s ++ t) = (String.length s + String.length t)%nat.
Proof. induction s as [|c s IH]; simpl; [reflexivity|now rewrite IH]. Qed.

Lemma hex_ok (bs : list Z) :
  Forall (fun b => 0 <= b < 256) bs ->
  String.length (Sha256.hex bs) = (2 * length bs)%nat
  /\ all_hex (Sha256.hex bs) = true.
Proof.
  unfold Sha256.hex.
  induction 1 as [|b bs Hb Hbs [IH1 IH2]]; cbn [fold_right]; [now split|].
  destruct (hex_byte_ok b Hb) as [H1 H2].
  split.
  - rewrite length_append, H1, IH1. cbn [length]. lia.
  - now rewrite all_hex_app, H2, IH2.
Qed.

(** X23. Whatever the request id, the result, the timestamp and the
    server secret, an evidence hash is a string of 64 characters, each a
    digit or a letter from [a] to [f]: it has no prefix naming the
    algorithm. *)
Theorem evidence_hash_is_64_hex_digits
  (SERVER_SECRET requestId : string) (result : value) (completedAt : string) :
  String.length (generateEvidenceHash SERVER_SECRET requestId result completedAt)
  = 64%nat
  /\ all_hex (generateEvidenceHash SERVER_SECRET requestId result completedAt)
     = true.
Proof.
  unfold generateEvidenceHash, Sha256.sha256_hex.
  match goal with
  | |- context [Sha256.digest_words ?m] => set (ws := Sha256.digest_words m)
  end.
  destruct (digest_bytes ws) as [Hlen Hbytes].
  destruct (hex_ok _ Hbytes) as [H1 H2].
  split; [|assumption].
  rewrite H1, Hlen. unfold ws. now rewrite digest_words_length.
Qed.

(* ------------------------------------------------------------------------- *)
(** ** Receipts and the requests that own them *)
(* ------------------------------------------------------------------------- *)

Lemma refers_set (st : state) (id : string) (r' : Request.t) :
  (forall k r, In (k, r) (requests st) -> refers_to k r) ->
  refers_to id r' ->
  forall k r, In (k, r) (map_set id r' (requests st)) -> refers_to k r.
Proof.
  intros Hst Hr k r Hin.
  apply In_map_set in Hin as [E|Hin]; [|now apply Hst].
  inversion E; subst. assumption.
Qed.

Lemma step_refers (SERVER_SECRET PORT : string) (st : state) (o : op) :
  (forall k r, In (k, r) (requests st) -> refers_to k r) ->
  forall k r,
    In (k, r) (requests (fst (fst (step SERVER_SECRET PORT st o)))) ->
    refers_to k r.
Proof.
  intros Hst.
  destruct o as [b u now date_now|i|i|qs qp qa|i humanId result reason now
                |n now1 now2|sock requestId|handle requestId|handle rs];
    unfold step.
  - unfold create.
    destruct (negb (includes VALID_ACTIONS (Body.action b))); [exact Hst|].
    destruct (negb (includes VALID_ROLES
                      (default_to (VStr "owner") (Body.role b)))); [exact Hst|].
    destruct (validatePayload (Body.action b)
                (default_to (VObj []) (Body.payload b))) as [[e|]|];
      [exact Hst| |exact Hst].
    break_if; [exact Hst|].
    apply refers_set; [exact Hst|]. split; [reflexivity|]. discriminate.
  - exact Hst.
  - unfold cancel.
    destruct (assoc i (requests st)) as [request|] eqn:Hget; [|exact Hst].
    break_if; [exact Hst|].
    apply refers_set; [exact Hst|].
    apply assoc_In in Hget. apply Hst in Hget. exact Hget.
  - exact Hst.
  - unfold resolve.
    destruct (assoc i (requests st)) as [request|] eqn:Hget; [|exact Hst].
    repeat break_if; try exact Hst.
    all: destruct (validateResult request result) as [[e|]|]; try exact Hst.
    apply refers_set; [exact Hst|].
    apply assoc_In in Hget. apply Hst in Hget. destruct Hget as [Hid _].
    split; [exact Hid|]. intros rc [= <-]. split; reflexivity.
  - unfold fire. destruct (nth_error (timers st) n) as [tm|]; [|exact Hst].
    unfold timeout_callback. cbn [requests].
    destruct (assoc (t_requestId tm) (requests st)) as [req|] eqn:Hget;
      [|exact Hst].
    destruct (Request.status req =? "pending")%string; [|exact Hst].
    apply refers_set; [exact Hst|].
    apply assoc_In in Hget. apply Hst in Hget.
    break_if.
    + destruct Hget as [Hid _].
      split; [exact Hid|]. intros rc [= <-]. split; reflexivity.
    + exact Hget.
  - pose proof (ws_connection_requests st sock requestId) as H.
    destruct (ws_connection st sock requestId) as [st' fs]. simpl in *.
    now rewrite H.
  - simpl. now rewrite ws_close_requests.
  - exact Hst.
Qed.

(** X24. In every state the server can reach, the request stored under an
    id carries that id as its [request_id], and its receipt, when it has
    one, names the same id and has the status [completed]: a receipt never
    points to another request than the one that holds it. *)
Theorem receipt_refers_to_its_request
  (SERVER_SECRET PORT : string) (ops : list op) (id : string) (r : Request.t) :
  In (id, r) (requests (run SERVER_SECRET PORT initial ops)) ->
  Request.request_id r = id
  /\ forall rc, Request.receipt r = Some rc ->
       Receipt.request_id rc = id /\ Receipt.status rc = "completed".
Proof.
  assert (H : forall st,
             (forall k r, In (k, r) (requests st) -> refers_to k r) ->
             forall k r,
               In (k, r) (requests (run SERVER_SECRET PORT st ops)) ->
               refers_to k r).
  { induction ops as [|o ops IH]; intros st Hst; simpl; [exact Hst|].
    apply IH. now apply step_refers. }
  intros Hin. apply (H initial); [|exact Hin]. intros k r0 [].
Qed.

(** Instance: the request a human has resolved. *)
Lemma receipt_refers_to_its_request_resolved :
  Request.request_id Scenario.resolved_request = Scenario.id
  /\ Request.status Scenario.resolved_request = "completed".
Proof.
  assert (E : assoc Scenario.id
                (requests (run dev_secret dev_port initial Scenario.resolved))
              = Some Scenario.resolved_request)
    by (vm_compute; reflexivity).
  split; [|reflexivity].
  exact (proj1 (receipt_refers_to_its_request dev_secret dev_port
                  Scenario.resolved Scenario.id Scenario.resolved_request
                  (assoc_In _ _ _ E))).
Defined.

(** X25. A receipt that the resolve handler writes can be checked from
    its own fields: its [evidence_hash] is the digest of its [request_id],
    its [result], its [completed_at] and the server secret. *)
Theorem resolve_receipt_verifies
  (SERVER_SECRET : string) (st : state) (id humanId : string)
  (result reason : value) (now : Z) (rc : Receipt.t) :
  receipt_of st id = None ->
  receipt_of (fst (fst (resolve SERVER_SECRET st id humanId result reason now))) id
  = Some rc ->
  Receipt.evidence_hash rc
  = generateEvidenceHash SERVER_SECRET (Receipt.request_id rc) (Receipt.result rc)
      (toISOString (Receipt.completed_at rc))
  /\ Receipt.request_id rc = id
  /\ Receipt.result rc = result
  /\ Receipt.completed_by rc = humanId.
Proof.
  intros Hold. unfold resolve.
  destruct (assoc id (requests st)) as [request|] eqn:Hget;
    [|cbn [fst]; rewrite Hold; discriminate].
  repeat break_if; cbn [fst]; try (rewrite Hold; discriminate).
  all: destruct (validateResult request result) as [[e|]|];
    cbn [fst]; try (rewrite Hold; discriminate).
  unfold receipt_of, with_requests. cbn [requests].
  rewrite assoc_map_set_same. cbn [Request.receipt Request.set_receipt].
  intros [= <-]. repeat split.
Qed.

(** Instance: the receipt of the request a human has resolved. *)
Lemma resolve_receipt_verifies_resolved :
  exists rc,
    Request.receipt Scenario.resolved_request = Some rc
    /\ Receipt.evidence_hash rc
       = generateEvidenceHash dev_secret (Receipt.request_id rc)
           (Receipt.result rc) (toISOString (Receipt.completed_at rc)).
Proof.
  assert (E : receipt_of
                (Scenario.state_after
                   [Create (Scenario.decide_body None VUndefined VUndefined)
                      Scenario.uuid Scenario.t0 Scenario.t0])
                Scenario.id = None)
    by (vm_compute; reflexivity).
  assert (R : receipt_of
                (fst (fst (resolve dev_secret
                             (Scenario.state_after
                                [Create (Scenario.decide_body None VUndefined
                                           VUndefined)
                                   Scenario.uuid Scenario.t0 Scenario.t0])
                             Scenario.id "dev-human-token" (VStr "Approve")
                             VUndefined (Scenario.t0 + 4200))))
                Scenario.id
              = Request.receipt Scenario.resolved_request)
    by (vm_compute; reflexivity).
  eexists. split; [reflexivity|].
  exact (proj1 (resolve_receipt_verifies dev_secret _ Scenario.id
                  "dev-human-token" (VStr "Approve") VUndefined
                  (Scenario.t0 + 4200) _ E R)).
Defined.
